(** * EST SMTP test server: session state machine and relay algorithm

    A shallow embedding of the class [SMTPTestServer] of [src/est.py]
    ([_handle_client], [_extract_email], [_process_email], [_relay_email],
    [_get_mx_servers]) together with the properties its specification
    states about it.

    Layout: text primitives of Python's [str]; the data carried by the
    server; the platform interface (resolver, sockets, outbound SMTP
    client, clock, case mapping); the state-and-exception monad the
    server code runs in; the server functions; then the theorems. *)

From Stdlib Require Import List Ascii String Bool Arith Lia.
From Stdlib Require Import Permutation Sorted.
Import ListNotations.
Open Scope string_scope.
Open Scope nat_scope.
Open Scope list_scope.

Set Implicit Arguments.

(** ** Python text *)

(** A Python [str] is a sequence of code points; the model keeps the
    code points below 256, one [ascii] each. *)
Definition str := list ascii.

Definition pystr (s : string) : str := list_ascii_of_string s.
Coercion pystr : string >-> str.

Definition LF : ascii := "010"%char.
Definition CR : ascii := "013"%char.
Definition CRLF : str := [CR; LF].

Module PyStr.

(** [a == b] *)
Fixpoint eqb (a b : str) : bool :=
  match a, b with
  | [], [] => true
  | c :: a', d :: b' => Ascii.eqb c d && eqb a' b'
  | _, _ => false
  end.

(** [s.startswith(p)] *)
Fixpoint startswith (s p : str) {struct p} : bool :=
  match p with
  | [] => true
  | c :: p' =>
      match s with
      | [] => false
      | d :: s' => Ascii.eqb c d && startswith s' p'
      end
  end.

(** [s.endswith(p)] *)
Definition endswith (s p : str) : bool := startswith (rev s) (rev p).

(** [s[:-n]] for a positive literal [n]: everything but the last [n]
    characters, the empty text when [s] is shorter than [n]. *)
Definition drop_last (n : nat) (s : str) : str := firstn (List.length s - n) s.

(** [str.isspace] on the code points below 256: TAB, LF, VT, FF, CR,
    FS, GS, RS, US, SPACE, NEL (0x85) and NBSP (0xA0). *)
Definition isspace (c : ascii) : bool :=
  let n := nat_of_ascii c in
  ((9 <=? n) && (n <=? 13)) || ((28 <=? n) && (n <=? 32))
  || (n =? 133) || (n =? 160).

Fixpoint lstrip_by (p : ascii -> bool) (s : str) : str :=
  match s with
  | [] => []
  | c :: s' => if p c then lstrip_by p s' else s
  end.

Definition rstrip_by (p : ascii -> bool) (s : str) : str :=
  rev (lstrip_by p (rev s)).

Definition strip_by (p : ascii -> bool) (s : str) : str :=
  rstrip_by p (lstrip_by p s).

(** [s.strip()] *)
Definition strip (s : str) : str := strip_by isspace s.

Definition in_chars (cs : str) (c : ascii) : bool :=
  existsb (Ascii.eqb c) cs.

(** [s.strip(cs)] and [s.rstrip(cs)] for a set of characters [cs] *)
Definition strip_chars (cs s : str) : str := strip_by (in_chars cs) s.
Definition rstrip_chars (cs s : str) : str := rstrip_by (in_chars cs) s.

(** [s.split()]: the maximal runs of non-whitespace characters, in
    order.  [cur] is the token being read. *)
Fixpoint split_from (cur s : str) : list str :=
  match s with
  | [] => match cur with [] => [] | _ => [cur] end
  | c :: s' =>
      if isspace c
      then match cur with
           | [] => split_from [] s'
           | _ => cur :: split_from [] s'
           end
      else split_from (cur ++ [c]) s'
  end.

Definition split (s : str) : list str := split_from [] s.

(** [s.split(sep)] for a one-character separator: never empty, one
    more field than there are separators. *)
Fixpoint split_on_from (sep : ascii) (cur s : str) : list str :=
  match s with
  | [] => [cur]
  | c :: s' =>
      if Ascii.eqb c sep
      then cur :: split_on_from sep [] s'
      else split_on_from sep (cur ++ [c]) s'
  end.

Definition split_on (sep : ascii) (s : str) : list str :=
  split_on_from sep [] s.

(** [sep.join(parts)] *)
Fixpoint join (sep : str) (parts : list str) : str :=
  match parts with
  | [] => []
  | [p] => p
  | p :: ps => p ++ sep ++ join sep ps
  end.

End PyStr.

(** ** The pattern [<(.+?)>] of [_extract_email]

    [re.search] tries every start position from the left; at a start
    the group must hold at least one character, grows one character at
    a time, stops at the first closing bracket that follows, and cannot
    take in a line feed (the pattern is compiled without DOTALL). *)
Module Re.

(** The rest of the group and the closing bracket: [.*?>]. *)
Fixpoint until_close (s : str) : option str :=
  match s with
  | [] => None
  | c :: s' =>
      if Ascii.eqb c ">" then Some []
      else if Ascii.eqb c LF then None
      else option_map (cons c) (until_close s')
  end.

(** What follows an opening bracket: [(.+?)>]. *)
Definition group_after_open (s : str) : option str :=
  match s with
  | [] => None
  | c :: s' =>
      if Ascii.eqb c LF then None
      else option_map (cons c) (until_close s')
  end.

(** [re.search(r'<(.+?)>', s)], giving [match.group(1)]. *)
Fixpoint search_angle (s : str) : option str :=
  match s with
  | [] => None
  | c :: s' =>
      match (if Ascii.eqb c "<" then group_after_open s' else None) with
      | Some g => Some g
      | None => search_angle s'
      end
  end.

End Re.

(** [SMTPTestServer._extract_email] *)
Definition _extract_email (smtp_line : str) : str :=
  match Re.search_angle smtp_line with
  | Some g => g
  | None =>
      let parts := PyStr.split smtp_line in
      if 1 <? List.length parts
      then PyStr.strip_chars "<>" (last parts [])
      else []
  end.

(** ** Data of the server *)

(** One answer of the mail-exchange query: [mx.preference] (an
    unsigned number) and [str(mx.exchange)]. *)
Record mx_record := { preference : nat; exchange : str }.

(** The [details] mapping that [_process_email] builds. *)
Record relay_details := {
  client_id : str;
  total_targets : nat;
  successful_deliveries : nat;
  email_size : nat
}.

(** [TestResult] *)
Record TestResult := {
  timestamp : str;
  test_type : str;
  scenario : str;
  target : str;
  from_email : str;
  success : bool;
  details : relay_details
}.

(** What a session does to the outside, in the order it does it. *)
Inductive event :=
| Sent (data : str)                       (* client_sock.send(data) *)
| MxQuery (domain : str) (ok : bool)      (* dns.resolver.resolve(domain, 'MX') *)
| Probe (host : str) (ok : bool)          (* socket.gethostbyname(host) *)
| SmtpAttempt (mx mail_from rcpt message : str) (ok : bool)
                                          (* SMTP(mx, 25), sendmail, quit *)
| Recorded (r : TestResult)               (* _log_test_result(r) *)
| Closed.                                 (* client_sock.close() *)

(** What one [client_sock.recv] gives: decoded text (empty when the
    peer has closed), or an error (time-out, reset). *)
Inductive recv_item := Chunk (text : str) | RecvError.

(** [sorted(xs, key=...)]: ascending and stable.  An element goes in
    front of the first one whose key is not smaller than its own. *)
Fixpoint insert_by (A : Type) (key : A -> nat) (x : A) (l : list A) : list A :=
  match l with
  | [] => [x]
  | y :: l' => if key x <=? key y then x :: l else y :: insert_by key x l'
  end.

Fixpoint sorted_by (A : Type) (key : A -> nat) (l : list A) : list A :=
  match l with
  | [] => []
  | x :: l' => insert_by key x (sorted_by key l')
  end.

(** ** The platform

    Everything the server calls and does not define: the resolver
    library, the socket layer, the outbound SMTP client, the clock and
    Python's case mapping [str.upper], which is kept abstract.  An
    answer may depend on the state of the world and change it.  [false]
    and [None] stand for a raised exception. *)
Class Platform (World : Type) := {
  str_upper : str -> str;
  resolve_mx : str -> World -> option (list mx_record) * World;
  gethostbyname : str -> World -> bool * World;
  smtp_deliver : str -> str -> str -> str -> World -> bool * World;
  sock_send : str -> World -> bool * World;
  sock_close : World -> bool * World;
  now_isoformat : World -> str * World
}.

(** ** State and exceptions *)

Record state (World : Type) := {
  world : World;
  inbox : list recv_item;        (* what the peer will send, one item per recv *)
  trace : list event;
  emails_processed : nat         (* self.emails_processed *)
}.

(** A call returns, raises an [Exception], or waits for input the peer
    never sends. *)
Inductive result (A : Type) :=
| Ret (a : A)
| Raise
| Blocked.
Arguments Raise {A}.
Arguments Blocked {A}.

Definition M (World A : Type) : Type := state World -> result A * state World.

Section Monad.
Context {World : Type}.

Definition ret (A : Type) (a : A) : M World A := fun s => (Ret a, s).

Definition bind (A B : Type) (m : M World A) (k : A -> M World B) : M World B :=
  fun s =>
    match m s with
    | (Ret a, s') => k a s'
    | (Raise, s') => (Raise, s')
    | (Blocked, s') => (Blocked, s')
    end.

Definition raise (A : Type) : M World A := fun s => (Raise, s).

(** [try: m  except Exception: h] *)
Definition try_except (A : Type) (m h : M World A) : M World A :=
  fun s =>
    match m s with
    | (Raise, s') => h s'
    | r => r
    end.

Definition emit (e : event) : M World unit :=
  fun s => (Ret tt, {| world := world s; inbox := inbox s;
                       trace := trace s ++ [e];
                       emails_processed := emails_processed s |}).

(** A call into the platform. *)
Definition ask (A : Type) (f : World -> A * World) : M World A :=
  fun s => let (a, w) := f (world s) in
           (Ret a, {| world := w; inbox := inbox s; trace := trace s;
                      emails_processed := emails_processed s |}).

(** [client_sock.recv(4096).decode('utf-8', errors='ignore')] *)
Definition recv : M World str :=
  fun s =>
    match inbox s with
    | [] => (Blocked, s)
    | item :: rest =>
        let s' := {| world := world s; inbox := rest; trace := trace s;
                     emails_processed := emails_processed s |} in
        match item with
        | Chunk text => (Ret text, s')
        | RecvError => (Raise, s')
        end
    end.

(** [self.emails_processed += 1] *)
Definition count_email : M World unit :=
  fun s => (Ret tt, {| world := world s; inbox := inbox s; trace := trace s;
                       emails_processed := S (emails_processed s) |}).

(** [xs[i]], raising IndexError out of range. *)
Definition index (A : Type) (xs : list A) (i : nat) : M World A :=
  match nth_error xs i with
  | Some x => ret x
  | None => raise A
  end.

End Monad.

Notation "x <- m ;; k" := (bind m (fun x => k))
  (at level 61, m at next level, right associativity).
Notation "m ;;; k" := (bind m (fun _ => k))
  (at level 61, right associativity).

(** ** The server

    The functions below follow [SMTPTestServer] statement by statement.
    Calls to the logger are left out: they neither answer nor raise.
    The flag [self.running] is taken to hold for the length of a
    session (the signal handler that clears it ends the process). *)

(** The end-of-data marker ['\r\n.\r\n']. *)
Definition TERMINATOR : str := CRLF ++ ("." : str) ++ CRLF.

Definition __version__ : str := "2.0.1".

Definition GREETING : str :=
  ("220 EST-SMTP-" : str) ++ __version__
  ++ (" Security Testing Server Ready" : str) ++ CRLF.
Definition HELLO (peer : str) : str :=
  ("250-EST-SMTP Hello " : str) ++ peer ++ CRLF ++ ("250 HELP" : str) ++ CRLF.
Definition OK_250 : str := ("250 OK" : str) ++ CRLF.
Definition START_354 : str :=
  ("354 End data with <CR><LF>.<CR><LF>" : str) ++ CRLF.
Definition QUEUED_250 : str :=
  ("250 OK Message queued for delivery" : str) ++ CRLF.
Definition FAILED_550 : str := ("550 Message delivery failed" : str) ++ CRLF.
Definition BYE_221 : str := ("221 EST-SMTP closing connection" : str) ++ CRLF.
Definition UNKNOWN_500 : str := ("500 Command not recognized" : str) ++ CRLF.

(** The body loop of the DATA branch, on what the peer sends:
    [email_data += line] and then the test [line.endswith('\r\n.\r\n')]
    on the chunk just received. *)
Fixpoint read_data_from (email_data : str) (items : list recv_item)
  : result str * list recv_item :=
  match items with
  | [] => (Blocked, [])
  | RecvError :: rest => (Raise, rest)
  | Chunk line :: rest =>
      let email_data := email_data ++ line in
      if PyStr.endswith line TERMINATOR
      then (Ret email_data, rest)
      else read_data_from email_data rest
  end.

(** [f"From: {mail_from}\r\nTo: {rcpt_to}\r\n{email_data}"], the
    message [_relay_email] hands to the outbound session. *)
Definition full_email (mail_from rcpt_to email_data : str) : str :=
  ("From: " : str) ++ mail_from ++ CRLF
  ++ ("To: " : str) ++ rcpt_to ++ CRLF ++ email_data.

(** How one turn of the command loop ends: [break], or on to the next
    turn with the envelope [mail_from], [rcpt_to]. *)
Inductive flow :=
| Break
| Continue (mail_from : str) (rcpt_to : list str).

Section Server.
Context {World : Type} {P : Platform World}.

(** [client_sock.send(data)] *)
Definition send (data : str) : M World unit :=
  ok <- ask (sock_send data) ;;
  emit (Sent data) ;;;
  if ok then ret tt else raise unit.

(** [dns.resolver.resolve(domain, 'MX')]; the import of the resolver
    library fails the same way. *)
Definition dns_resolve (domain : str) : M World (list mx_record) :=
  r <- ask (resolve_mx domain) ;;
  match r with
  | Some mx_records => emit (MxQuery domain true) ;;; ret mx_records
  | None => emit (MxQuery domain false) ;;; raise (list mx_record)
  end.

(** [socket.gethostbyname(host)] *)
Definition probe (host : str) : M World unit :=
  ok <- ask (gethostbyname host) ;;
  emit (Probe host ok) ;;;
  if ok then ret tt else raise unit.

(** One outbound session: [smtplib.SMTP(mx_server, 25, timeout=15)],
    [sendmail(mail_from, [rcpt_to], full_email_bytes)], [quit()]. *)
Definition smtp_session (mx_server mail_from rcpt_to full_email : str) : M World unit :=
  ok <- ask (smtp_deliver mx_server mail_from rcpt_to full_email) ;;
  emit (SmtpAttempt mx_server mail_from rcpt_to full_email ok) ;;;
  if ok then ret tt else raise unit.

(** [_log_test_result]: the record goes to the log file; a failure to
    write it is logged and goes no further. *)
Definition _log_test_result (r : TestResult) : M World unit := emit (Recorded r).

(** The loop over [fallbacks] in [_get_mx_servers]. *)
Fixpoint probe_fallbacks (fallbacks working_fallbacks : list str) : M World (list str) :=
  match fallbacks with
  | [] => ret working_fallbacks
  | mx :: rest =>
      working_fallbacks <-
        try_except (probe mx ;;; ret (working_fallbacks ++ [mx]))
                   (ret working_fallbacks) ;;
      probe_fallbacks rest working_fallbacks
  end.

(** [SMTPTestServer._get_mx_servers] *)
Definition _get_mx_servers (domain : str) : M World (list str) :=
  found <-
    try_except
      (mx_records <- dns_resolve domain ;;
       let servers :=
         map (fun mx => PyStr.rstrip_chars "." (exchange mx))
             (sorted_by preference mx_records) in
       ret (Some servers))
      (ret None) ;;
  match found with
  | Some servers => ret servers
  | None =>
      let fallbacks := [("mail." : str) ++ domain;
                        ("mx." : str) ++ domain;
                        ("mx1." : str) ++ domain] in
      probe_fallbacks fallbacks []
  end.

(** The loop over [mx_servers] in [_relay_email]. *)
Fixpoint relay_loop (mail_from rcpt_to email_data : str)
                    (mx_servers : list str) : M World bool :=
  match mx_servers with
  | [] => ret false
  | mx_server :: rest =>
      delivered <-
        try_except
          (let full_email := full_email mail_from rcpt_to email_data in
           smtp_session mx_server mail_from rcpt_to full_email ;;;
           ret true)
          (ret false) ;;
      if delivered then ret true
      else relay_loop mail_from rcpt_to email_data rest
  end.

(** [SMTPTestServer._relay_email] *)
Definition _relay_email (mail_from rcpt_to email_data : str) : M World bool :=
  try_except
    (domain <- index (PyStr.split_on "@" rcpt_to) 1 ;;
     mx_servers <- _get_mx_servers domain ;;
     relay_loop mail_from rcpt_to email_data mx_servers)
    (ret false).

(** The loop over [rcpt_to] in [_process_email]. *)
Fixpoint count_successes (mail_from : str) (rcpt_to : list str)
                         (email_data : str) (success_count : nat) : M World nat :=
  match rcpt_to with
  | [] => ret success_count
  | rcpt :: rest =>
      delivered <- _relay_email mail_from rcpt email_data ;;
      count_successes mail_from rest email_data
        (if delivered then S success_count else success_count)
  end.

(** [SMTPTestServer._process_email] *)
Definition _process_email (mail_from : str) (rcpt_to : list str)
                          (email_data cid : str) : M World bool :=
  success_count <- count_successes mail_from rcpt_to email_data 0 ;;
  now <- ask now_isoformat ;;
  let result := {|
    timestamp := now;
    test_type := "smtp_relay";
    scenario := "server_relay";
    target := PyStr.join ", " rcpt_to;
    from_email := mail_from;
    success := 0 <? success_count;
    details := {| client_id := cid;
                  total_targets := List.length rcpt_to;
                  successful_deliveries := success_count;
                  email_size := List.length email_data |}
  |} in
  _log_test_result result ;;;
  ret (0 <? success_count).

(** The body loop of the DATA branch. *)
Definition read_data : M World str :=
  fun s =>
    let (r, rest) := read_data_from [] (inbox s) in
    (r, {| world := world s; inbox := rest; trace := trace s;
           emails_processed := emails_processed s |}).

(** One turn of the command loop of [_handle_client], with its
    [try] and [except] clauses.  [peer] is [addr[0]], [cid] is
    [client_id]. *)
Definition session_step (peer cid : str)
                        (mail_from : str) (rcpt_to : list str) : M World flow :=
  try_except
    (chunk <- recv ;;
     let data := PyStr.strip chunk in
     match data with
     | [] => ret Break
     | _ =>
       let cmd := str_upper data in
       if PyStr.startswith cmd "EHLO" || PyStr.startswith cmd "HELO" then
         send (HELLO peer) ;;;
         ret (Continue mail_from rcpt_to)
       else if PyStr.startswith cmd "MAIL FROM:" then
         let mail_from := _extract_email data in
         send OK_250 ;;;
         ret (Continue mail_from rcpt_to)
       else if PyStr.startswith cmd "RCPT TO:" then
         let rcpt := _extract_email data in
         let rcpt_to := rcpt_to ++ [rcpt] in
         send OK_250 ;;;
         ret (Continue mail_from rcpt_to)
       else if PyStr.eqb cmd "DATA" then
         send START_354 ;;;
         email_data <- read_data ;;
         success <- _process_email mail_from rcpt_to
                                   (PyStr.drop_last 5 email_data) cid ;;
         count_email ;;;
         (if success then send QUEUED_250 else send FAILED_550) ;;;
         ret (Continue [] [])
       else if PyStr.eqb cmd "QUIT" then
         send BYE_221 ;;;
         ret Break
       else if PyStr.startswith cmd "RSET" then
         send OK_250 ;;;
         ret (Continue [] [])
       else
         send UNKNOWN_500 ;;;
         ret (Continue mail_from rcpt_to)
     end)
    (ret Break).

(** The command loop, [turns] turns at most.  A turn that goes on has
    taken at least one item from the inbox, so one turn more than the
    inbox is long is never used up ([session_loop_turns] below). *)
Fixpoint session_loop (turns : nat) (peer cid : str)
                      (mail_from : str) (rcpt_to : list str) : M World unit :=
  match turns with
  | 0 => fun s => (Blocked, s)
  | S turns' =>
      next <- session_step peer cid mail_from rcpt_to ;;
      match next with
      | Break => ret tt
      | Continue mail_from rcpt_to =>
          session_loop turns' peer cid mail_from rcpt_to
      end
  end.

(** [client_sock.close()]: an [OSError] from it is raised on. *)
Definition close : M World unit :=
  ok <- ask sock_close ;;
  emit Closed ;;;
  if ok then ret tt else raise unit.

(** [SMTPTestServer._handle_client], while [self.running] holds.  The
    [except Exception] clause takes whatever the greeting and the loop
    raise; the [finally] clause closes the socket after it, outside
    every handler. *)
Definition _handle_client (peer cid : str) : M World unit :=
  try_except
    (send GREETING ;;;
     fun s => session_loop (S (List.length (inbox s))) peer cid [] [] s)
    (ret tt) ;;;
  close.

End Server.

(** The state after a call that moved the world to [w] and added the
    events [evs]. *)
Definition advance (World : Type) (s : state World) (w : World)
                   (evs : list event) : state World :=
  {| world := w; inbox := inbox s; trace := trace s ++ evs;
     emails_processed := emails_processed s |}.

(** ** A laboratory platform

    A small closed world on which the server runs by computation: the
    world counts the outbound SMTP sessions opened so far. *)
Module Lab.

Definition upper_char (c : ascii) : ascii :=
  let n := nat_of_ascii c in
  if (97 <=? n) && (n <=? 122) then ascii_of_nat (n - 32) else c.

(** Upper-casing of ASCII text. *)
Definition upper (s : str) : str := map upper_char s.

Definition mx_table (domain : str) : option (list mx_record) :=
  if PyStr.eqb domain "x" then
    Some [ {| preference := 10; exchange := "mx1.x" |};
           {| preference := 5; exchange := "mx0.x" |} ]
  else if PyStr.eqb domain "example.com" then
    Some [ {| preference := 20; exchange := "backup.example.com." |};
           {| preference := 10; exchange := "mx-a.example.com." |};
           {| preference := 10; exchange := "mx-b.example.com." |} ]
  else None.

Definition resolves (host : str) : bool :=
  PyStr.eqb host "mail.corp.test" || PyStr.eqb host "mx1.corp.test".

Definition accepts (mx : str) : bool :=
  PyStr.eqb mx "mx-b.example.com" || PyStr.eqb mx "mx1.corp.test".

#[export] Instance platform : Platform nat := {
  str_upper := upper;
  resolve_mx := fun domain w => (mx_table domain, w);
  gethostbyname := fun host w => (resolves host, w);
  smtp_deliver := fun mx _ _ _ w => (accepts mx, S w);
  sock_send := fun _ w => (true, w);
  sock_close := fun w => (true, w);
  now_isoformat := fun w => (pystr "2024-01-01T00:00:00", w)
}.

Definition start (items : list recv_item) : state nat :=
  {| world := 0; inbox := items; trace := []; emails_processed := 0 |}.

End Lab.

(** ** What the properties are stated with *)

(** [g] is the text between an opening and a closing angle bracket of
    [line], and is not empty. *)
Definition angle_span (line g : str) : Prop :=
  exists pre post, line = pre ++ "<"%char :: g ++ ">"%char :: post /\ g <> [].

(** The span the pattern finds: no line feed inside, the leftmost
    opening bracket that starts such a span, and the nearest closing
    bracket after its first character. *)
Definition first_span (line pre g post : str) : Prop :=
  line = pre ++ "<"%char :: g ++ ">"%char :: post
  /\ g <> [] /\ ~ In LF g /\ ~ In ">"%char (tl g)
  /\ forall pre' g' post',
       line = pre' ++ "<"%char :: g' ++ ">"%char :: post' ->
       g' <> [] -> ~ In LF g' -> List.length pre <= List.length pre'.

Section Statements.
Context {World : Type} {P : Platform World}.

Definition attempt (mail_from rcpt_to email_data : str) (ok : bool)
                   (mx : str) : event :=
  SmtpAttempt mx mail_from rcpt_to (full_email mail_from rcpt_to email_data) ok.

(** Every host of the list, tried in order from world [w], fails, and
    the world is [w'] afterwards. *)
Inductive all_fail (mail_from rcpt_to email_data : str)
  : list str -> World -> World -> Prop :=
| all_fail_nil w : all_fail mail_from rcpt_to email_data [] w w
| all_fail_cons mx rest w w1 w2 :
    smtp_deliver mx mail_from rcpt_to
                 (full_email mail_from rcpt_to email_data) w = (false, w1) ->
    all_fail mail_from rcpt_to email_data rest w1 w2 ->
    all_fail mail_from rcpt_to email_data (mx :: rest) w w2.

(** Each recipient of the list is handed to [_relay_email] in order,
    each from the state the one before left; [outcomes] are the
    answers. *)
Inductive dispatch_all (mail_from email_data : str)
  : list str -> state World -> list bool -> state World -> Prop :=
| dispatch_nil s : dispatch_all mail_from email_data [] s [] s
| dispatch_cons rcpt rest s delivered s1 outcomes s2 :
    _relay_email mail_from rcpt email_data s = (Ret delivered, s1) ->
    dispatch_all mail_from email_data rest s1 outcomes s2 ->
    dispatch_all mail_from email_data (rcpt :: rest) s
                 (delivered :: outcomes) s2.

(** How the dispatch of one recipient went, told by the candidate
    hosts: the address had no domain to look up; or the hosts [refused]
    failed one after the other, [mx] took the message and the hosts
    [untried] were left alone; or every candidate host failed. *)
Inductive verdict :=
| NoDomain
| Delivered (refused : list str) (mx : str) (untried : list str)
| Exhausted (refused : list str).

Definition verdict_ok (v : verdict) : bool :=
  match v with
  | Delivered _ _ _ => true
  | NoDomain | Exhausted _ => false
  end.

(** The dispatch of [rcpt_to] from state [s], told by the answers of
    the platform alone: the candidate hosts are those [_get_mx_servers]
    gives for the text after the first [@], and the outbound sessions
    are the platform's [smtp_deliver]. *)
Inductive relay_verdict (mail_from rcpt_to email_data : str)
  : state World -> verdict -> state World -> Prop :=
| verdict_no_domain s :
    nth_error (PyStr.split_on "@" rcpt_to) 1 = None ->
    relay_verdict mail_from rcpt_to email_data s NoDomain s
| verdict_delivered s domain s1 refused mx untried w1 w2 :
    nth_error (PyStr.split_on "@" rcpt_to) 1 = Some domain ->
    _get_mx_servers domain s = (Ret (refused ++ mx :: untried), s1) ->
    all_fail mail_from rcpt_to email_data refused (world s1) w1 ->
    smtp_deliver mx mail_from rcpt_to
                 (full_email mail_from rcpt_to email_data) w1 = (true, w2) ->
    relay_verdict mail_from rcpt_to email_data s
      (Delivered refused mx untried)
      (advance s1 w2 (map (attempt mail_from rcpt_to email_data false) refused
                      ++ [attempt mail_from rcpt_to email_data true mx]))
| verdict_exhausted s domain s1 hosts w1 :
    nth_error (PyStr.split_on "@" rcpt_to) 1 = Some domain ->
    _get_mx_servers domain s = (Ret hosts, s1) ->
    all_fail mail_from rcpt_to email_data hosts (world s1) w1 ->
    relay_verdict mail_from rcpt_to email_data s
      (Exhausted hosts)
      (advance s1 w1 (map (attempt mail_from rcpt_to email_data false) hosts)).

(** The recipients of the list, each with its verdict, in order, each
    from the state the one before left. *)
Inductive dispatch_verdicts (mail_from email_data : str)
  : list str -> state World -> list verdict -> state World -> Prop :=
| verdicts_nil s : dispatch_verdicts mail_from email_data [] s [] s
| verdicts_cons rcpt rest s v s1 verdicts s2 :
    relay_verdict mail_from rcpt email_data s v s1 ->
    dispatch_verdicts mail_from email_data rest s1 verdicts s2 ->
    dispatch_verdicts mail_from email_data (rcpt :: rest) s
                      (v :: verdicts) s2.

(** An outbound session that went through. *)
Definition delivered_event (e : event) : bool :=
  match e with
  | SmtpAttempt _ _ _ _ ok => ok
  | _ => false
  end.

(** The chunk [c] is a command line whose stripped, upper-cased text
    begins with [kw], respectively is [kw]. *)
Definition begins_with (kw c : str) : Prop :=
  PyStr.strip c <> [] /\ PyStr.startswith (str_upper (PyStr.strip c)) kw = true.

Definition is_exactly (kw c : str) : Prop :=
  PyStr.strip c <> [] /\ str_upper (PyStr.strip c) = kw.

(** A turn that sends [r] and nothing else: on with [next] when the
    send went through, out of the loop when it raised. *)
Definition replies (r : str) (next : flow) (s : state World)
                   (rest : list recv_item) : result flow * state World :=
  let (ok, w) := sock_send r (world s) in
  (Ret (if ok then next else Break),
   {| world := w; inbox := rest; trace := trace s ++ [Sent r];
      emails_processed := emails_processed s |}).

(** A computation that does not put anything back into the inbox. *)
Definition settles {A : Type} (m : M World A) : Prop :=
  forall s, List.length (inbox (snd (m s))) <= List.length (inbox s).

(** The record [_process_email] writes. *)
Definition relay_record (now mail_from : str) (rcpt_to : list str)
                        (email_data cid : str) (success_count : nat) : TestResult :=
  {| timestamp := now;
     test_type := "smtp_relay";
     scenario := "server_relay";
     target := PyStr.join ", " rcpt_to;
     from_email := mail_from;
     success := 0 <? success_count;
     details := {| client_id := cid;
                   total_targets := List.length rcpt_to;
                   successful_deliveries := success_count;
                   email_size := List.length email_data |} |}.

End Statements.

(** The replies sent and the records written, read off a trace. *)
Definition replies_of (t : list event) : list str :=
  flat_map (fun e => match e with Sent data => [data] | _ => [] end) t.

Definition records_of (t : list event) : list TestResult :=
  flat_map (fun e => match e with Recorded r => [r] | _ => [] end) t.

(** The records of preference [p]. *)
Definition has_preference (p : nat) (mx : mx_record) : bool :=
  preference mx =? p.

(** [str(mx.exchange).rstrip('.')] *)
Definition host_name (mx : mx_record) : str :=
  PyStr.rstrip_chars "." (exchange mx).

(** ** Further vocabulary *)

(** A platform like the laboratory one, on which the connection to the
    client breaks after a number of sends: the world counts the sends
    that are still to go through. *)
Module Flaky.

Definition platform : Platform nat := {|
  str_upper := Lab.upper;
  resolve_mx := fun domain w => (Lab.mx_table domain, w);
  gethostbyname := fun host w => (Lab.resolves host, w);
  smtp_deliver := fun mx _ _ _ w => (Lab.accepts mx, w);
  sock_send := fun _ w => match w with 0 => (false, 0) | S w' => (true, w') end;
  sock_close := fun w => (true, w);
  now_isoformat := fun w => (pystr "2024-01-01T00:00:00", w)
|}.

Definition start (sends : nat) (items : list recv_item) : state nat :=
  {| world := sends; inbox := items; trace := []; emails_processed := 0 |}.

End Flaky.

(** The laboratory platform with a client socket whose [close()]
    raises. *)
Module Stale.

Definition platform : Platform nat := {|
  str_upper := Lab.upper;
  resolve_mx := fun domain w => (Lab.mx_table domain, w);
  gethostbyname := fun host w => (Lab.resolves host, w);
  smtp_deliver := fun mx _ _ _ w => (Lab.accepts mx, S w);
  sock_send := fun _ w => (true, w);
  sock_close := fun w => (false, w);
  now_isoformat := fun w => (pystr "2024-01-01T00:00:00", w)
|}.

End Stale.

(** The events of the resolver and of the outbound sessions. *)
Definition network_event (e : event) : bool :=
  match e with
  | MxQuery _ _ | Probe _ _ | SmtpAttempt _ _ _ _ _ => true
  | _ => false
  end.

Section Bookkeeping.
Context {World : Type} {P : Platform World}.

(** A computation that only adds to the trace, and that adds to the
    counter of processed messages what it adds to the trace as
    records. *)
Definition tallies {A : Type} (m : M World A) : Prop :=
  forall s, exists evs,
    trace (snd (m s)) = trace s ++ evs
    /\ emails_processed (snd (m s))
       = emails_processed s + List.length (records_of evs).


End Bookkeeping.

(** ** The configuration file: [ESTConfig._load_config]

    What [json.load] gives.  A number keeps its literal. *)
#[warnings="-register-all"]
Inductive json :=
| JNull
| JBool (b : bool)
| JNum (literal : str)
| JStr (s : str)
| JList (items : list json)
| JDict (entries : list (str * json)).

Module Json.

(** [sub in t] on two texts. *)
Fixpoint contains (t sub : str) : bool :=
  PyStr.startswith t sub
  || match t with
     | [] => false
     | _ :: t' => contains t' sub
     end.

(** [key in d] on a dict. *)
Definition has_key (d : list (str * json)) (key : str) : bool :=
  existsb (fun kv => PyStr.eqb (fst kv) key) d.

(** [d[key]], [None] for KeyError. *)
Fixpoint get (d : list (str * json)) (key : str) : option json :=
  match d with
  | [] => None
  | (k, v) :: d' => if PyStr.eqb k key then Some v else get d' key
  end.

(** [d[key] = value]: a key the dict has keeps its place, a new key
    goes to the end. *)
Fixpoint set (d : list (str * json)) (key : str) (value : json)
  : list (str * json) :=
  match d with
  | [] => [(key, value)]
  | (k, v) :: d' =>
      if PyStr.eqb k key then (k, value) :: d' else (k, v) :: set d' key value
  end.

(** [key in x] for a text [key]: membership in a dict or a list, a
    substring test on a text, TypeError ([None]) on the rest. *)
Definition mentions (x : json) (key : str) : option bool :=
  match x with
  | JDict d => Some (has_key d key)
  | JList items =>
      Some (existsb (fun item => match item with
                                 | JStr s => PyStr.eqb s key
                                 | _ => false
                                 end) items)
  | JStr t => Some (contains t key)
  | JNull | JBool _ | JNum _ => None
  end.

(** [x[key] = value] for a text [key]: TypeError on all but a dict. *)
Definition setitem (x : json) (key : str) (value : json) : option json :=
  match x with
  | JDict d => Some (JDict (set d key value))
  | _ => None
  end.

End Json.

(** The file system as [_load_config] sees it: [config_file.exists()],
    and [open] with [json.load] ([None] when either raises). *)
Class ConfigFile (World : Type) := {
  config_file_exists : World -> bool * World;
  json_load : World -> option json * World
}.

(** The loop [for key in default_config] of [_load_config] over the
    keys still to come; [None] when a statement of the loop raises. *)
Fixpoint merge_defaults (default_config : list (str * json))
                        (keys : list str) (loaded_config : json) : option json :=
  match keys with
  | [] => Some loaded_config
  | key :: keys' =>
      match Json.mentions loaded_config key with
      | None => None
      | Some true => merge_defaults default_config keys' loaded_config
      | Some false =>
          match Json.get default_config key with
          | None => None
          | Some value =>
              match Json.setitem loaded_config key value with
              | None => None
              | Some loaded_config =>
                  merge_defaults default_config keys' loaded_config
              end
          end
      end
  end.

(** [ESTConfig._load_config].  [default_config] stands for the literal
    of the source, whose values hold text beyond the code points of
    [str]; its keys are [DEFAULT_KEYS].  The answer is the
    configuration, what [_save_config] was asked to write, if
    anything, and the world afterwards.  The message printed on a
    failure is left out. *)
Definition _load_config (World : Type) {F : ConfigFile World}
           (default_config : list (str * json)) (w : World)
  : json * option json * World :=
  let (found, w1) := config_file_exists w in
  if found then
    let (loaded, w2) := json_load w1 in
    match loaded with
    | Some loaded_config =>
        match merge_defaults default_config (map fst default_config)
                             loaded_config with
        | Some merged => (merged, None, w2)
        | None => (JDict default_config, None, w2)
        end
    | None => (JDict default_config, None, w2)
    end
  else (JDict default_config, Some (JDict default_config), w1).

Definition DEFAULT_KEYS : list str :=
  [pystr "version"; pystr "smtp_server"; pystr "scenarios";
   pystr "temp_email_services"; pystr "reporting"].

(** A configuration file with a fixed content, for runs. *)
Module LabConfig.

Definition file (content : option (option json)) : ConfigFile unit := {|
  config_file_exists := fun w => (match content with Some _ => true | None => false end, w);
  json_load := fun w => (match content with Some c => c | None => None end, w)
|}.

(** Defaults with the keys of the source and short values. *)
Definition defaults : list (str * json) :=
  [ (pystr "version", JStr "2.0.1");
    (pystr "smtp_server",
     JDict [ (pystr "host", JStr "0.0.0.0"); (pystr "port", JNum "2525");
             (pystr "timeout", JNum "30") ]);
    (pystr "scenarios", JList []);
    (pystr "temp_email_services", JList [JStr "mailinator.com"]);
    (pystr "reporting", JDict [ (pystr "format", JStr "json") ]) ].

End LabConfig.

(** * Properties *)

Unset Implicit Arguments.

(** ** Text *)

Module PyStrFacts.
Import PyStr.

Lemma eqb_eq (a b : str) : eqb a b = true <-> a = b.
Proof.
  revert b. induction a as [|c a IH]; intros [|d b]; simpl;
    try (split; [discriminate|congruence]); [tauto|].
  rewrite andb_true_iff, Ascii.eqb_eq, IH. split.
  - now intros [-> ->].
  - intro H. now injection H.
Qed.

Lemma eqb_refl (a : str) : eqb a a = true.
Proof. now apply eqb_eq. Qed.

Lemma startswith_app (p t : str) : startswith (p ++ t) p = true.
Proof.
  induction p as [|c p IH]; simpl; [reflexivity|].
  now rewrite Ascii.eqb_refl, IH.
Qed.

Lemma startswith_inv (p s : str) :
  startswith s p = true -> exists t, s = p ++ t.
Proof.
  revert s. induction p as [|c p IH]; intros s H; simpl in H.
  - now exists s.
  - destruct s as [|d s]; [discriminate|].
    apply andb_prop in H. destruct H as [Hc Hs].
    apply Ascii.eqb_eq in Hc. subst d.
    destruct (IH _ Hs) as [t ->]. now exists t.
Qed.

Lemma startswith_iff (p s : str) :
  startswith s p = true <-> exists t, s = p ++ t.
Proof.
  split; [apply startswith_inv|].
  intros [t ->]. apply startswith_app.
Qed.

Lemma endswith_iff (p s : str) :
  endswith s p = true <-> exists t, s = t ++ p.
Proof.
  unfold endswith. rewrite startswith_iff. split.
  - intros [t H]. exists (rev t).
    rewrite <- (rev_involutive s), H, rev_app_distr.
    now rewrite rev_involutive.
  - intros [t ->]. exists (rev t). apply rev_app_distr.
Qed.

Lemma endswith_app_r (a s p : str) :
  endswith s p = true -> endswith (a ++ s) p = true.
Proof.
  rewrite !endswith_iff. intros [t ->]. exists (a ++ t).
  now rewrite app_assoc.
Qed.

Lemma drop_last_app (t p : str) : drop_last (List.length p) (t ++ p) = t.
Proof.
  unfold drop_last. rewrite length_app.
  replace (List.length t + List.length p - List.length p)
    with (List.length t + 0) by lia.
  rewrite firstn_app_2. simpl. apply app_nil_r.
Qed.

Lemma split_on_from_absent (sep : ascii) (s cur : str) :
  ~ In sep s -> split_on_from sep cur s = [cur ++ s].
Proof.
  revert cur. induction s as [|c s IH]; intros cur Hn; simpl.
  - now rewrite app_nil_r.
  - destruct (Ascii.eqb c sep) eqn:E.
    + apply Ascii.eqb_eq in E. subst c. exfalso. apply Hn. now left.
    + rewrite IH by (intro Hi; apply Hn; now right).
      now rewrite <- app_assoc.
Qed.

Lemma split_on_absent (sep : ascii) (s : str) :
  ~ In sep s -> split_on sep s = [s].
Proof. intro H. unfold split_on. now rewrite split_on_from_absent. Qed.

(** The tokens of [split] are not empty, hold no whitespace, and
    together are the line without its whitespace. *)
Lemma split_from_tokens (s : str) :
  forall cur,
    forallb (fun c => negb (isspace c)) cur = true ->
    Forall (fun t => t <> [] /\ forallb (fun c => negb (isspace c)) t = true)
           (split_from cur s).
Proof.
  induction s as [|c s IH]; intros cur Hcur; simpl.
  - destruct cur; constructor; [split; [discriminate|exact Hcur]|constructor].
  - destruct (isspace c) eqn:E.
    + destruct cur.
      * now apply IH.
      * constructor; [split; [discriminate|exact Hcur]|now apply IH].
    + apply IH. rewrite forallb_app, Hcur. simpl. now rewrite E.
Qed.

Lemma split_tokens (s : str) :
  Forall (fun t => t <> [] /\ forallb (fun c => negb (isspace c)) t = true)
         (split s).
Proof. now apply split_from_tokens. Qed.

Lemma split_from_concat (s : str) :
  forall cur,
    List.concat (split_from cur s)
    = cur ++ filter (fun c => negb (isspace c)) s.
Proof.
  induction s as [|c s IH]; intro cur; simpl.
  - destruct cur; simpl; now rewrite ?app_nil_r.
  - destruct (isspace c) eqn:E; simpl.
    + destruct cur; simpl; now rewrite IH.
    + now rewrite IH, <- app_assoc.
Qed.

Lemma split_concat (s : str) :
  List.concat (split s) = filter (fun c => negb (isspace c)) s.
Proof. apply split_from_concat. Qed.

End PyStrFacts.

(** ** The monad *)

Lemma advance_same (World : Type) (s : state World) :
  advance s (world s) [] = s.
Proof. destruct s. unfold advance. simpl. now rewrite app_nil_r. Qed.

Lemma advance_advance (World : Type) (s : state World) w1 e1 w2 e2 :
  advance (advance s w1 e1) w2 e2 = advance s w2 (e1 ++ e2).
Proof. unfold advance. simpl. now rewrite app_assoc. Qed.

Ltac unfold_monad :=
  unfold send, probe, dns_resolve, smtp_session, _log_test_result, index,
    count_email, read_data, recv, bind, try_except, ask, emit, ret, raise.

Section Relay.
Context {World : Type} {P : Platform World}.
Variables mail_from rcpt_to email_data : str.

(** A host that refuses the message sends the loop on to the next. *)
Lemma relay_loop_failed mx rest (s : state World) w1 :
  smtp_deliver mx mail_from rcpt_to
               (full_email mail_from rcpt_to email_data) (world s) = (false, w1) ->
  relay_loop mail_from rcpt_to email_data (mx :: rest) s
  = relay_loop mail_from rcpt_to email_data rest
      (advance s w1 [attempt mail_from rcpt_to email_data false mx]).
Proof.
  intro H. cbn [relay_loop]. unfold_monad. now rewrite H.
Qed.

(** A host that takes the message ends the loop. *)
Lemma relay_loop_delivered mx rest (s : state World) w1 :
  smtp_deliver mx mail_from rcpt_to
               (full_email mail_from rcpt_to email_data) (world s) = (true, w1) ->
  relay_loop mail_from rcpt_to email_data (mx :: rest) s
  = (Ret true, advance s w1 [attempt mail_from rcpt_to email_data true mx]).
Proof.
  intro H. cbn [relay_loop]. unfold_monad. now rewrite H.
Qed.

Lemma relay_loop_all_fail hosts w w' :
  all_fail mail_from rcpt_to email_data hosts w w' ->
  forall s : state World, world s = w ->
  relay_loop mail_from rcpt_to email_data hosts s
  = (Ret false,
     advance s w' (map (attempt mail_from rcpt_to email_data false) hosts)).
Proof.
  induction 1 as [w|mx rest w w1 w2 Hmx _ IH]; intros s Hs; subst w.
  - simpl. unfold ret. now rewrite advance_same.
  - rewrite (relay_loop_failed _ rest _ _ Hmx), IH by reflexivity.
    now rewrite advance_advance.
Qed.

Lemma relay_loop_first_success pre mx post w w1 w2 :
  all_fail mail_from rcpt_to email_data pre w w1 ->
  smtp_deliver mx mail_from rcpt_to
               (full_email mail_from rcpt_to email_data) w1 = (true, w2) ->
  forall s : state World, world s = w ->
  relay_loop mail_from rcpt_to email_data (pre ++ mx :: post) s
  = (Ret true,
     advance s w2
       (map (attempt mail_from rcpt_to email_data false) pre
        ++ [attempt mail_from rcpt_to email_data true mx])).
Proof.
  induction 1 as [w|h rest w wa wb Hh _ IH]; intros Hmx s Hs; subst w.
  - simpl app. now rewrite (relay_loop_delivered _ post _ _ Hmx).
  - simpl app. rewrite (relay_loop_failed _ (rest ++ mx :: post) _ _ Hh), IH by easy.
    now rewrite advance_advance.
Qed.

End Relay.

(** ** Resolver and dispatcher always answer *)

Section Totality.
Context {World : Type} {P : Platform World}.

Lemma probe_fallbacks_run fallbacks :
  forall working (s : state World),
  exists hosts w evs,
    probe_fallbacks fallbacks working s = (Ret hosts, advance s w evs)
    /\ existsb delivered_event evs = false.
Proof.
  induction fallbacks as [|mx rest IH]; intros working s.
  - exists working, (world s), []. simpl. unfold ret.
    now rewrite advance_same.
  - cbn [probe_fallbacks]. unfold_monad.
    destruct (gethostbyname mx (world s)) as [ok w1] eqn:E.
    destruct ok;
      match goal with
      | |- context [probe_fallbacks rest ?acc ?s1] =>
          destruct (IH acc s1) as (hosts & w & evs & Hrun & Hev)
      end;
      rewrite Hrun;
      [exists hosts, w, (Probe mx true :: evs)
      |exists hosts, w, (Probe mx false :: evs)];
      (split; [f_equal; unfold advance; simpl; now rewrite <- app_assoc
              |exact Hev]).
Qed.

Lemma get_mx_servers_run domain (s : state World) :
  exists hosts w evs,
    _get_mx_servers domain s = (Ret hosts, advance s w evs)
    /\ existsb delivered_event evs = false.
Proof.
  unfold _get_mx_servers. unfold_monad.
  destruct (resolve_mx domain (world s)) as [[records|] w0] eqn:E.
  - eexists _, w0, [MxQuery domain true]. split; reflexivity.
  - match goal with
    | |- context [probe_fallbacks ?fb ?acc ?s1] =>
        destruct (probe_fallbacks_run fb acc s1) as (hosts & w & evs & Hrun & Hev)
    end.
    rewrite Hrun. exists hosts, w, (MxQuery domain false :: evs).
    split; [|exact Hev].
    f_equal. unfold advance. simpl. now rewrite <- app_assoc.
Qed.

Lemma relay_loop_run mail_from rcpt_to email_data hosts :
  forall s : state World,
  exists delivered w evs,
    relay_loop mail_from rcpt_to email_data hosts s
    = (Ret delivered, advance s w evs)
    /\ delivered = existsb delivered_event evs.
Proof.
  induction hosts as [|mx rest IH]; intro s.
  - exists false, (world s), []. simpl. unfold ret.
    now rewrite advance_same.
  - destruct (smtp_deliver mx mail_from rcpt_to
                (full_email mail_from rcpt_to email_data) (world s))
      as [ok w1] eqn:E.
    destruct ok.
    + rewrite (relay_loop_delivered _ _ _ _ rest _ _ E).
      now exists true, w1, [attempt mail_from rcpt_to email_data true mx].
    + rewrite (relay_loop_failed _ _ _ _ rest _ _ E).
      destruct (IH (advance s w1 [attempt mail_from rcpt_to email_data false mx]))
        as (b & w & evs & Hrun & Hb).
      rewrite Hrun, advance_advance.
      now exists b, w, (attempt mail_from rcpt_to email_data false mx :: evs).
Qed.

(** [_relay_email] returns a boolean whatever it is given: it never
    raises and never waits. *)
Lemma relay_email_run mail_from rcpt_to email_data (s : state World) :
  exists delivered w evs,
    _relay_email mail_from rcpt_to email_data s
    = (Ret delivered, advance s w evs)
    /\ delivered = existsb delivered_event evs.
Proof.
  unfold _relay_email, index.
  destruct (nth_error (PyStr.split_on "@" rcpt_to) 1) as [domain|].
  - destruct (get_mx_servers_run domain s) as (hosts & w0 & e0 & Hmx & He0).
    destruct (relay_loop_run mail_from rcpt_to email_data hosts (advance s w0 e0))
      as (b & w & evs & Hrun & Hb).
    exists b, w, (e0 ++ evs). unfold try_except, bind, ret at 1.
    rewrite Hmx, Hrun, advance_advance. split; [reflexivity|].
    now rewrite existsb_app, He0.
  - exists false, (world s), []. unfold try_except, bind, raise, ret.
    now rewrite advance_same.
Qed.

End Totality.

(** ** Relay dispatcher *)

Section Dispatcher.
Context {World : Type} {P : Platform World}.

Lemma relay_email_hosts mail_from rcpt_to email_data domain hosts
      (s s1 : state World) :
  nth_error (PyStr.split_on "@" rcpt_to) 1 = Some domain ->
  _get_mx_servers domain s = (Ret hosts, s1) ->
  _relay_email mail_from rcpt_to email_data s
  = relay_loop mail_from rcpt_to email_data hosts s1.
Proof.
  intros Hd Hmx. unfold _relay_email, index. rewrite Hd.
  unfold try_except, bind, ret at 1. rewrite Hmx.
  destruct (relay_loop_run mail_from rcpt_to email_data hosts s1)
    as (b & w & evs & Hrun & _).
  now rewrite Hrun.
Qed.

(** C2.  [_relay_email] tries the candidate hosts in the order of the
    list the resolver gave.  When the hosts before [mx] all fail and
    [mx] takes the message, the answer is success, the sessions opened
    are those to the hosts before [mx] and to [mx], in order, and no
    host after [mx] is contacted.  When every host fails, every host
    has been tried, in order, and the answer is failure. *)
Theorem relay_stops_at_first_success
        mail_from rcpt_to email_data domain hosts (s s1 : state World) :
  nth_error (PyStr.split_on "@" rcpt_to) 1 = Some domain ->
  _get_mx_servers domain s = (Ret hosts, s1) ->
  (forall pre mx post w1 w2,
      hosts = pre ++ mx :: post ->
      all_fail mail_from rcpt_to email_data pre (world s1) w1 ->
      smtp_deliver mx mail_from rcpt_to
                   (full_email mail_from rcpt_to email_data) w1 = (true, w2) ->
      _relay_email mail_from rcpt_to email_data s
      = (Ret true,
         advance s1 w2
           (map (attempt mail_from rcpt_to email_data false) pre
            ++ [attempt mail_from rcpt_to email_data true mx])))
  /\ (forall w1,
      all_fail mail_from rcpt_to email_data hosts (world s1) w1 ->
      _relay_email mail_from rcpt_to email_data s
      = (Ret false,
         advance s1 w1 (map (attempt mail_from rcpt_to email_data false) hosts))).
Proof.
  intros Hd Hmx. split.
  - intros pre mx post w1 w2 -> Hpre Hok.
    rewrite (relay_email_hosts _ _ _ _ _ _ _ Hd Hmx).
    now apply (relay_loop_first_success _ _ _ pre mx post (world s1) w1 w2).
  - intros w1 Hall.
    rewrite (relay_email_hosts _ _ _ _ _ _ _ Hd Hmx).
    now apply (relay_loop_all_fail _ _ _ hosts (world s1) w1).
Qed.

(** C10.  A recipient without ['@'] makes [rcpt_to.split('@')[1]]
    raise; the handler of [_relay_email] turns that into the answer
    [False], before any lookup or outbound session. *)
Theorem relay_without_at_sign_fails
        mail_from rcpt_to email_data (s : state World) :
  ~ In "@"%char rcpt_to ->
  _relay_email mail_from rcpt_to email_data s = (Ret false, s).
Proof.
  intro Hno. unfold _relay_email, index.
  now rewrite (PyStrFacts.split_on_absent _ _ Hno).
Qed.

Lemma existsb_id_count (outcomes : list bool) (n : nat) :
  (0 <? n + count_occ bool_dec outcomes true)
  = (0 <? n) || existsb (fun b => b) outcomes.
Proof.
  revert n. induction outcomes as [|b bs IH]; intro n.
  - simpl. now rewrite Nat.add_0_r, orb_false_r.
  - destruct b; cbn [count_occ existsb].
    + destruct (bool_dec true true) as [_|N]; [|congruence].
      rewrite orb_true_r. apply Nat.ltb_lt. lia.
    + destruct (bool_dec false true) as [N|_]; [congruence|].
      simpl. apply IH.
Qed.

Lemma count_successes_run mail_from email_data rcpt_to :
  forall (n : nat) (s : state World),
  exists outcomes s1 evs,
    dispatch_all mail_from email_data rcpt_to s outcomes s1
    /\ s1 = advance s (world s1) evs
    /\ count_successes mail_from rcpt_to email_data n s
       = (Ret (n + count_occ bool_dec outcomes true), s1)
    /\ existsb (fun b => b) outcomes = existsb delivered_event evs.
Proof.
  induction rcpt_to as [|rcpt rest IH]; intros n s.
  - exists [], s, []. repeat split.
    + constructor.
    + now rewrite advance_same.
    + simpl. unfold ret. now rewrite Nat.add_0_r.
  - destruct (relay_email_run mail_from rcpt email_data s)
      as (b & w & e1 & Hrun & Hb).
    destruct (IH (if b then S n else n) (advance s w e1))
      as (bs & s2 & e2 & Hall & Hs2 & Hcount & Hbs).
    exists (b :: bs), s2, (e1 ++ e2). repeat split.
    + econstructor; eassumption.
    + rewrite Hs2 at 1. now rewrite advance_advance.
    + cbn [count_successes]. unfold bind at 1. rewrite Hrun, Hcount.
      do 2 f_equal. destruct b; cbn [count_occ].
      * destruct (bool_dec true true); [lia|congruence].
      * destruct (bool_dec false true); [congruence|lia].
    + cbn [existsb]. now rewrite existsb_app, Hb, Hbs.
Qed.

Lemma dispatch_all_length mail_from email_data rcpt_to
      (s s1 : state World) outcomes :
  dispatch_all mail_from email_data rcpt_to s outcomes s1 ->
  List.length outcomes = List.length rcpt_to.
Proof. induction 1; simpl; congruence. Qed.

(** Tried in order, the hosts of a list either fail up to one that
    takes the message, or fail all. *)
Lemma hosts_verdict mail_from rcpt_to email_data hosts :
  forall w : World,
    (exists refused mx untried w1 w2,
        hosts = refused ++ mx :: untried
        /\ all_fail mail_from rcpt_to email_data refused w w1
        /\ smtp_deliver mx mail_from rcpt_to
                        (full_email mail_from rcpt_to email_data) w1 = (true, w2))
    \/ (exists w1, all_fail mail_from rcpt_to email_data hosts w w1).
Proof.
  induction hosts as [|mx rest IH]; intro w.
  - right. exists w. constructor.
  - destruct (smtp_deliver mx mail_from rcpt_to
                (full_email mail_from rcpt_to email_data) w) as [[|] wa] eqn:E.
    + left. exists [], mx, rest, w, wa. repeat split; [constructor|exact E].
    + destruct (IH wa) as [(refused & mx' & untried & w1 & w2 & -> & Hf & Hok)
                          |(w1 & Hf)].
      * left. exists (mx :: refused), mx', untried, w1, w2.
        repeat split; [econstructor; eassumption|exact Hok].
      * right. exists w1. econstructor; eassumption.
Qed.

(** Every dispatch has a verdict, and [_relay_email] answers by it. *)
Lemma relay_email_verdict mail_from rcpt_to email_data (s : state World) :
  exists v s1,
    relay_verdict mail_from rcpt_to email_data s v s1
    /\ _relay_email mail_from rcpt_to email_data s = (Ret (verdict_ok v), s1).
Proof.
  destruct (nth_error (PyStr.split_on "@" rcpt_to) 1) as [domain|] eqn:Hd.
  - destruct (get_mx_servers_run domain s) as (hosts & w0 & e0 & Hmx & _).
    rewrite (relay_email_hosts mail_from rcpt_to email_data domain hosts
               s (advance s w0 e0) Hd Hmx).
    destruct (hosts_verdict mail_from rcpt_to email_data hosts
                (world (advance s w0 e0)))
      as [(refused & mx & untried & w1 & w2 & Hh & Hf & Hok)|(w1 & Hf)].
    + subst hosts. eexists (Delivered refused mx untried), _. split.
      * eapply verdict_delivered; eassumption.
      * now apply (relay_loop_first_success mail_from rcpt_to email_data
                     refused mx untried (world (advance s w0 e0)) w1 w2).
    + eexists (Exhausted hosts), _. split.
      * eapply verdict_exhausted; eassumption.
      * now apply (relay_loop_all_fail mail_from rcpt_to email_data
                     hosts (world (advance s w0 e0)) w1).
  - exists NoDomain, s. split; [now constructor|].
    unfold _relay_email, index. now rewrite Hd.
Qed.

Lemma count_successes_verdicts mail_from email_data rcpt_to :
  forall (n : nat) (s : state World),
  exists verdicts s1 evs,
    dispatch_verdicts mail_from email_data rcpt_to s verdicts s1
    /\ dispatch_all mail_from email_data rcpt_to s
                    (map verdict_ok verdicts) s1
    /\ s1 = advance s (world s1) evs
    /\ count_successes mail_from rcpt_to email_data n s
       = (Ret (n + count_occ bool_dec (map verdict_ok verdicts) true), s1)
    /\ existsb (fun b => b) (map verdict_ok verdicts)
       = existsb delivered_event evs.
Proof.
  induction rcpt_to as [|rcpt rest IH]; intros n s.
  - exists [], s, []. repeat split.
    + constructor.
    + constructor.
    + now rewrite advance_same.
    + simpl. unfold ret. now rewrite Nat.add_0_r.
  - destruct (relay_email_verdict mail_from rcpt email_data s)
      as (v & sa & Hv & Hrun).
    destruct (relay_email_run mail_from rcpt email_data s)
      as (b & w & e1 & Hrun' & Hb).
    assert (Hsame : Ret (verdict_ok v) = Ret b /\ sa = advance s w e1)
      by (split; congruence).
    destruct Hsame as [Hvb ->]. injection Hvb as Hvb.
    destruct (IH (if verdict_ok v then S n else n) (advance s w e1))
      as (vs & s2 & e2 & Hvs & Hall & Hs2 & Hcount & Hbs).
    exists (v :: vs), s2, (e1 ++ e2). repeat split.
    + econstructor; eassumption.
    + cbn [map]. econstructor; eassumption.
    + rewrite Hs2 at 1. now rewrite advance_advance.
    + cbn [count_successes]. unfold bind at 1. rewrite Hrun, Hcount.
      do 2 f_equal. cbn [map count_occ]. destruct (verdict_ok v).
      * destruct (bool_dec true true); [lia|congruence].
      * destruct (bool_dec false true); [congruence|lia].
    + cbn [map existsb]. now rewrite existsb_app, Hvb, Hb, Hbs.
Qed.

(** C3.  [_process_email] dispatches every recipient of the list, in
    list order and whatever the earlier answers were.  Each dispatch has
    a verdict told by the platform's answers: the address has no domain;
    or the candidate hosts are tried in the order of the list, each
    failure leaving the next host to be tried, until one takes the
    message; or every candidate host has been tried and has failed.
    The answer is success exactly when one verdict is a delivery, which
    is exactly when one outbound session of the run went through; so
    the answer is failure only when, for every recipient, every
    candidate host failed (or there was none to try).  The verdicts are
    the answers of [_relay_email], and one record is written, after the
    last dispatch, with the number of deliveries. *)
Theorem process_email_at_least_one
        mail_from rcpt_to email_data cid (s : state World) :
  exists verdicts s1 evs now w,
    dispatch_verdicts mail_from email_data rcpt_to s verdicts s1
    /\ dispatch_all mail_from email_data rcpt_to s
                    (map verdict_ok verdicts) s1
    /\ List.length verdicts = List.length rcpt_to
    /\ s1 = advance s (world s1) evs
    /\ now_isoformat (world s1) = (now, w)
    /\ _process_email mail_from rcpt_to email_data cid s
       = (Ret (existsb verdict_ok verdicts),
          advance s1 w
            [Recorded (relay_record now mail_from rcpt_to email_data cid
                         (count_occ bool_dec (map verdict_ok verdicts) true))])
    /\ existsb verdict_ok verdicts = existsb delivered_event evs.
Proof.
  destruct (count_successes_verdicts mail_from email_data rcpt_to 0 s)
    as (verdicts & s1 & evs & Hvs & Hall & Hs1 & Hcount & Hev).
  destruct (now_isoformat (world s1)) as [now w] eqn:Hnow.
  assert (Hex : existsb verdict_ok verdicts
                = existsb (fun b => b) (map verdict_ok verdicts)).
  { clear. induction verdicts as [|v vs IH]; [reflexivity|].
    cbn [map existsb]. now rewrite IH. }
  exists verdicts, s1, evs, now, w. repeat split; trivial.
  - rewrite <- (length_map verdict_ok).
    eapply dispatch_all_length; eassumption.
  - unfold _process_email. unfold bind at 1. rewrite Hcount.
    unfold_monad. rewrite Hnow. cbn [Nat.add].
    pose proof (existsb_id_count (map verdict_ok verdicts) 0) as Hc.
    cbn [Nat.add] in Hc. change (0 <? 0) with false in Hc.
    cbn [orb] in Hc. rewrite Hex, <- Hc. reflexivity.
  - now rewrite Hex.
Qed.

End Dispatcher.

(** ** Exchanger resolver *)

Section StableSort.
Variables (A : Type) (key : A -> nat).

Lemma insert_by_perm x l : Permutation (x :: l) (insert_by key x l).
Proof.
  induction l as [|y l IH]; simpl; [reflexivity|].
  destruct (key x <=? key y); [reflexivity|].
  rewrite perm_swap. now constructor.
Qed.

Lemma sorted_by_perm l : Permutation l (sorted_by key l).
Proof.
  induction l as [|x l IH]; simpl; [constructor|].
  rewrite <- insert_by_perm. now constructor.
Qed.

Lemma insert_by_sorted x l :
  StronglySorted (fun a b => key a <= key b) l ->
  StronglySorted (fun a b => key a <= key b) (insert_by key x l).
Proof.
  induction 1 as [|y l Hs IH Hy]; simpl.
  - repeat constructor.
  - destruct (key x <=? key y) eqn:E.
    + apply Nat.leb_le in E. constructor; [now constructor|].
      constructor; [exact E|].
      eapply Forall_impl; [|exact Hy].
      intros a Ha. simpl in *. lia.
    + apply Nat.leb_gt in E. constructor; [exact IH|].
      apply (Permutation_Forall (insert_by_perm x l)).
      constructor; [lia|exact Hy].
Qed.

Lemma sorted_by_sorted l :
  StronglySorted (fun a b => key a <= key b) (sorted_by key l).
Proof.
  induction l as [|x l IH]; simpl; [constructor|].
  now apply insert_by_sorted.
Qed.

(** Stability: the elements of one key keep the order they came in. *)
Lemma insert_by_filter k x l :
  filter (fun a => key a =? k) (insert_by key x l)
  = filter (fun a => key a =? k) (x :: l).
Proof.
  induction l as [|y l IH]; [reflexivity|].
  cbn [insert_by]. destruct (key x <=? key y) eqn:E; [reflexivity|].
  apply Nat.leb_gt in E. cbn [filter] in *. rewrite IH.
  destruct (key x =? k) eqn:Ex; [|reflexivity].
  apply Nat.eqb_eq in Ex.
  destruct (key y =? k) eqn:Ey; [|reflexivity].
  apply Nat.eqb_eq in Ey. lia.
Qed.

Lemma sorted_by_stable k l :
  filter (fun a => key a =? k) (sorted_by key l)
  = filter (fun a => key a =? k) l.
Proof.
  induction l as [|x l IH]; [reflexivity|].
  cbn [sorted_by]. rewrite insert_by_filter. cbn [filter].
  now rewrite IH.
Qed.

(** Ascending order and stability leave one result only: whatever
    sorting routine gives them gives the list [sorted_by] gives. *)
Lemma stable_sorted_unique l1 :
  forall l2,
    StronglySorted (fun a b => key a <= key b) l1 ->
    StronglySorted (fun a b => key a <= key b) l2 ->
    (forall k, filter (fun a => key a =? k) l1
               = filter (fun a => key a =? k) l2) ->
    l1 = l2.
Proof.
  induction l1 as [|x l1 IH]; intros l2 H1 H2 Hf.
  - destruct l2 as [|y l2]; [reflexivity|].
    specialize (Hf (key y)). simpl in Hf. now rewrite Nat.eqb_refl in Hf.
  - destruct l2 as [|y l2].
    { specialize (Hf (key x)). simpl in Hf. now rewrite Nat.eqb_refl in Hf. }
    apply StronglySorted_inv in H1, H2.
    destruct H1 as [H1 Hx], H2 as [H2 Hy].
    assert (Hxy : key x = key y).
    { apply Nat.le_antisymm.
      - pose proof (Hf (key y)) as Hk. simpl in Hk.
        rewrite Nat.eqb_refl in Hk.
        destruct (key x =? key y) eqn:E; [apply Nat.eqb_eq in E; lia|].
        assert (Hin : In y (filter (fun a => key a =? key y) l1))
          by (rewrite Hk; now left).
        apply filter_In in Hin. destruct Hin as [Hin _].
        rewrite Forall_forall in Hx. now apply Hx.
      - pose proof (Hf (key x)) as Hk. simpl in Hk.
        rewrite Nat.eqb_refl in Hk.
        destruct (key y =? key x) eqn:E; [apply Nat.eqb_eq in E; lia|].
        assert (Hin : In x (filter (fun a => key a =? key x) l2))
          by (rewrite <- Hk; now left).
        apply filter_In in Hin. destruct Hin as [Hin _].
        rewrite Forall_forall in Hy. now apply Hy. }
    assert (x = y).
    { pose proof (Hf (key x)) as Hk. simpl in Hk.
      rewrite <- Hxy, Nat.eqb_refl in Hk. now injection Hk. }
    subst y. f_equal. apply IH; trivial.
    intro k. specialize (Hf k). simpl in Hf.
    destruct (key x =? k); [now injection Hf|exact Hf].
Qed.

End StableSort.

Module StripFacts.
Import PyStr.

Lemma lstrip_by_split p s :
  exists t, s = t ++ lstrip_by p s /\ forallb p t = true.
Proof.
  induction s as [|c s (t & Hs & Ht)]; simpl.
  - now exists [].
  - destruct (p c) eqn:E.
    + exists (c :: t). simpl. rewrite E, Ht. split; [congruence|reflexivity].
    + now exists [].
Qed.

Lemma lstrip_by_head p s :
  match lstrip_by p s with [] => True | c :: _ => p c = false end.
Proof.
  induction s as [|c s IH]; simpl; [exact I|].
  destruct (p c) eqn:E; [exact IH|exact E].
Qed.

Lemma rstrip_by_split p s :
  exists t, s = rstrip_by p s ++ t /\ forallb p t = true.
Proof.
  unfold rstrip_by.
  destruct (lstrip_by_split p (rev s)) as (t & Hs & Ht).
  exists (rev t). split.
  - rewrite <- (rev_involutive s), Hs at 1. apply rev_app_distr.
  - rewrite forallb_forall in *. intros c Hc. apply Ht.
    now apply in_rev.
Qed.

Lemma all_dots t :
  forallb (in_chars ".") t = true -> t = repeat "."%char (List.length t).
Proof.
  induction t as [|c t IH]; simpl; [reflexivity|].
  intro H. apply andb_prop in H. destruct H as [Hc Ht].
  unfold in_chars in Hc. cbn [pystr list_ascii_of_string existsb] in Hc.
  rewrite orb_false_r in Hc.
  apply Ascii.eqb_eq in Hc. subst c. now rewrite <- IH.
Qed.

(** [rstrip('.')] takes every trailing dot and nothing else. *)
Lemma rstrip_dots s :
  exists dots,
    s = rstrip_chars "." s ++ repeat "."%char dots
    /\ endswith (rstrip_chars "." s) "." = false.
Proof.
  unfold rstrip_chars.
  destruct (rstrip_by_split (in_chars ".") s) as (t & Hs & Ht).
  exists (List.length t). split.
  - now rewrite <- (all_dots t Ht).
  - unfold endswith, rstrip_by. rewrite rev_involutive.
    pose proof (lstrip_by_head (in_chars ".") (rev s)) as Hh.
    destruct (lstrip_by (in_chars ".") (rev s)) as [|c r]; [reflexivity|].
    unfold in_chars in Hh. cbn [pystr list_ascii_of_string existsb] in Hh.
    rewrite orb_false_r in Hh.
    change (rev (pystr ".")) with ["."%char]. cbn [startswith].
    rewrite Ascii.eqb_sym, Hh. reflexivity.
Qed.

End StripFacts.

Section Resolver.
Context {World : Type} {P : Platform World}.

(** C5.  When the mail-exchange query answers, [_get_mx_servers]
    returns the exchange names of the records in ascending order of
    preference, records of one preference in the order the query gave
    them, each name without its trailing dots; nothing is probed. *)
Theorem mx_servers_by_preference domain records (s : state World) w :
  resolve_mx domain (world s) = (Some records, w) ->
  exists ordered,
    _get_mx_servers domain s
    = (Ret (map host_name ordered), advance s w [MxQuery domain true])
    /\ Permutation records ordered
    /\ StronglySorted (fun a b => preference a <= preference b) ordered
    /\ (forall p, filter (has_preference p) ordered
                  = filter (has_preference p) records)
    /\ Forall (fun mx => exists dots,
                 exchange mx = host_name mx ++ repeat "."%char dots
                 /\ PyStr.endswith (host_name mx) "." = false) ordered.
Proof.
  intro H. exists (sorted_by preference records). repeat split.
  - unfold _get_mx_servers. unfold_monad. now rewrite H.
  - apply sorted_by_perm.
  - apply sorted_by_sorted.
  - intro p. apply sorted_by_stable.
  - apply Forall_forall. intros mx _. apply StripFacts.rstrip_dots.
Qed.

(** C6.  When the mail-exchange query fails, [_get_mx_servers] probes
    [mail.<domain>], [mx.<domain>] and [mx1.<domain>] in this order
    and returns those whose probe succeeded, in this order; with no
    probe succeeding it returns the empty list and does not raise. *)
Theorem mx_servers_fallback domain (s : state World) w0 b1 w1 b2 w2 b3 w3 :
  resolve_mx domain (world s) = (None, w0) ->
  gethostbyname (("mail." : str) ++ domain) w0 = (b1, w1) ->
  gethostbyname (("mx." : str) ++ domain) w1 = (b2, w2) ->
  gethostbyname (("mx1." : str) ++ domain) w2 = (b3, w3) ->
  _get_mx_servers domain s
  = (Ret (map fst (filter snd [ (("mail." : str) ++ domain, b1);
                                (("mx." : str) ++ domain, b2);
                                (("mx1." : str) ++ domain, b3) ])),
     advance s w3 [ MxQuery domain false;
                    Probe (("mail." : str) ++ domain) b1;
                    Probe (("mx." : str) ++ domain) b2;
                    Probe (("mx1." : str) ++ domain) b3 ]).
Proof.
  intros H0 H1 H2 H3.
  unfold _get_mx_servers. cbn [probe_fallbacks]. unfold_monad.
  rewrite H0. cbn [world]. rewrite H1.
  destruct b1; cbn [world]; rewrite H2;
    destruct b2; cbn [world]; rewrite H3;
    destruct b3; unfold advance; cbn; repeat rewrite <- app_assoc; reflexivity.
Qed.

End Resolver.

(** ** Address extractor *)

Module ReFacts.
Import Re.

Lemma until_close_some s :
  forall g, until_close s = Some g ->
  exists post, s = g ++ ">"%char :: post /\ ~ In ">"%char g /\ ~ In LF g.
Proof.
  induction s as [|c s IH]; intros g H; simpl in H; [discriminate|].
  destruct (Ascii.eqb c ">") eqn:Ec.
  - apply Ascii.eqb_eq in Ec. subst c. injection H as <-.
    exists s. auto.
  - destruct (Ascii.eqb c LF) eqn:El; [discriminate|].
    destruct (until_close s) as [g'|]; [|discriminate].
    injection H as <-.
    destruct (IH g' eq_refl) as (post & -> & Hc & Hl).
    apply Ascii.eqb_neq in Ec, El.
    exists post. split; [reflexivity|].
    split; intros [E|Hin]; congruence || auto.
Qed.

Lemma until_close_none s :
  until_close s = None ->
  forall g post, s = g ++ ">"%char :: post -> In LF g.
Proof.
  induction s as [|c s IH]; intros H g post Hs.
  - destruct g; discriminate.
  - simpl in H.
    destruct (Ascii.eqb c ">") eqn:Ec; [discriminate|].
    apply Ascii.eqb_neq in Ec.
    destruct g as [|d g]; simpl in Hs; injection Hs as Hd Hs; [congruence|].
    subst d. destruct (Ascii.eqb c LF) eqn:El.
    + apply Ascii.eqb_eq in El. now left.
    + right. destruct (until_close s); [discriminate|].
      now apply (IH eq_refl g post).
Qed.

Lemma group_after_open_some s g :
  group_after_open s = Some g ->
  exists post,
    s = g ++ ">"%char :: post /\ g <> [] /\ ~ In LF g /\ ~ In ">"%char (tl g).
Proof.
  destruct s as [|c s]; simpl; [discriminate|].
  destruct (Ascii.eqb c LF) eqn:El; [discriminate|].
  destruct (until_close s) as [g'|] eqn:Eg; [|discriminate].
  intro H. injection H as <-.
  destruct (until_close_some s g' Eg) as (post & -> & Hc & Hl).
  apply Ascii.eqb_neq in El.
  exists post. repeat split; [discriminate| |exact Hc].
  intros [E|Hin]; congruence || auto.
Qed.

Lemma group_after_open_none s :
  group_after_open s = None ->
  forall g post, g <> [] -> s = g ++ ">"%char :: post -> In LF g.
Proof.
  intros H g post Hg Hs.
  destruct g as [|d g]; [congruence|]. subst s. simpl in H.
  destruct (Ascii.eqb d LF) eqn:El.
  - apply Ascii.eqb_eq in El. now left.
  - right. destruct (until_close (g ++ ">"%char :: post)) eqn:Eg;
      [discriminate|].
    now apply (until_close_none _ Eg g post).
Qed.

Lemma search_angle_some s :
  forall g, search_angle s = Some g -> exists pre post, first_span s pre g post.
Proof.
  induction s as [|c s IH]; intros g H; simpl in H; [discriminate|].
  destruct (Ascii.eqb c "<") eqn:Ec.
  - apply Ascii.eqb_eq in Ec. subst c.
    destruct (group_after_open s) as [g0|] eqn:Eg.
    + injection H as <-.
      destruct (group_after_open_some s g0 Eg) as (post & -> & Hne & Hl & Hc).
      exists [], post. repeat split; auto. intros. simpl. lia.
    + destruct (IH g H) as (pre & post & -> & Hne & Hl & Hc & Hfirst).
      exists ("<"%char :: pre), post. repeat split; auto.
      intros pre' g' post' Hs Hne' Hl'.
      destruct pre' as [|d pre']; simpl in Hs.
      * injection Hs as Hs. exfalso. apply Hl'.
        apply (group_after_open_none _ Eg g' post' Hne').
        exact Hs.
      * injection Hs as Hd Hs. simpl. apply le_n_S.
        now apply (Hfirst pre' g' post').
  - destruct (IH g H) as (pre & post & -> & Hne & Hl & Hc & Hfirst).
    apply Ascii.eqb_neq in Ec.
    exists (c :: pre), post. repeat split; auto.
    intros pre' g' post' Hs Hne' Hl'.
    destruct pre' as [|d pre']; simpl in Hs; injection Hs as Hd Hs;
      [congruence|].
    simpl. apply le_n_S. now apply (Hfirst pre' g' post').
Qed.

Lemma search_angle_none s :
  search_angle s = None ->
  forall pre g post,
    s = pre ++ "<"%char :: g ++ ">"%char :: post -> g <> [] -> In LF g.
Proof.
  induction s as [|c s IH]; intros H pre g post Hs Hg.
  - destruct pre; discriminate.
  - simpl in H. destruct pre as [|d pre]; simpl in Hs; injection Hs as Hd Hs.
    + subst c. rewrite Ascii.eqb_refl in H.
      destruct (group_after_open s) eqn:Eg; [discriminate|].
      now apply (group_after_open_none _ Eg g post).
    + destruct (if Ascii.eqb c "<" then group_after_open s else None);
        [discriminate|].
      now apply (IH H pre g post).
Qed.

(** The pattern matches exactly when some bracketed span holds no
    line feed. *)
Lemma search_angle_none_iff s :
  search_angle s = None <-> (forall g, angle_span s g -> In LF g).
Proof.
  split.
  - intros H g (pre & post & Hs & Hg). now apply (search_angle_none _ H pre g post).
  - intro Hall. destruct (search_angle s) as [g|] eqn:E; [|reflexivity].
    destruct (search_angle_some _ _ E) as (pre & post & Hs & Hne & Hl & _).
    exfalso. apply Hl, Hall. now exists pre, post.
Qed.

Lemma no_bracket_no_span s g : ~ In "<"%char s -> ~ angle_span s g.
Proof.
  intros Hno (pre & post & -> & _). apply Hno.
  apply in_or_app. right. now left.
Qed.

End ReFacts.

(** C4, as the code has it.  When the line holds a bracketed, non-empty
    span without a line feed inside, [_extract_email] returns the
    contents of the first such span (leftmost opening bracket, nearest
    closing bracket).  When it holds none, the result is the last
    whitespace-delimited token without its leading and trailing angle
    brackets if there are two tokens or more, and the empty text if
    there is one token or none. *)
Theorem extract_email_cases (line : str) :
  (forall g, angle_span line g -> ~ In LF g ->
     exists pre post, first_span line pre (_extract_email line) post)
  /\ ((forall g, angle_span line g -> In LF g) ->
      2 <= List.length (PyStr.split line) ->
      _extract_email line
      = PyStr.strip_chars "<>" (last (PyStr.split line) []))
  /\ ((forall g, angle_span line g -> In LF g) ->
      List.length (PyStr.split line) <= 1 ->
      _extract_email line = []).
Proof.
  unfold _extract_email. repeat split.
  - intros g Hspan Hl.
    destruct (Re.search_angle line) as [g0|] eqn:E.
    + now apply ReFacts.search_angle_some.
    + exfalso. apply Hl. now apply (proj1 (ReFacts.search_angle_none_iff line) E).
  - intros Hall Hlen. rewrite (proj2 (ReFacts.search_angle_none_iff line) Hall).
    cbv zeta. destruct (Nat.ltb_spec 1 (List.length (PyStr.split line)));
      [reflexivity|lia].
  - intros Hall Hlen. rewrite (proj2 (ReFacts.search_angle_none_iff line) Hall).
    cbv zeta. destruct (Nat.ltb_spec 1 (List.length (PyStr.split line)));
      [lia|reflexivity].
Qed.

(** C4, as the specification words it, fails on a span that holds a
    line feed: the pattern does not match across it, and the last token
    is returned where the contents of the span are expected. *)
Lemma extract_email_span_with_line_feed :
  let line : str := ("<a" : str) ++ [LF] ++ ("b>" : str) in
  (exists g, angle_span line g)
  /\ _extract_email line = "b"
  /\ ~ angle_span line (_extract_email line).
Proof.
  cbv zeta. repeat split.
  - exists (("a" : str) ++ [LF] ++ ("b" : str)), [], [].
    split; [reflexivity|discriminate].
  - intros (pre & post & H & _). vm_compute in H.
    repeat (destruct pre as [|? pre]; simpl in H;
            [congruence|injection H as _ H]).
    destruct pre; discriminate.
Qed.

(** ** Session state machine *)

Ltac decide_tests :=
  repeat match goal with
    | |- context [PyStr.startswith ?x ?q] =>
        let b := eval cbv in (PyStr.startswith x q) in
        change (PyStr.startswith x q) with b
    | |- context [PyStr.eqb ?x ?q] =>
        let b := eval cbv in (PyStr.eqb x q) in
        change (PyStr.eqb x q) with b
    end;
  cbn [orb].

Ltac enter_step s Hin :=
  let w := fresh "w" in let ib := fresh "ib" in
  let tr := fresh "tr" in let n := fresh "n" in
  destruct s as [w ib tr n];
  cbn [world inbox trace emails_processed] in *; subst ib;
  unfold session_step, try_except, bind at 1, recv;
  cbn [inbox world trace emails_processed];
  destruct (PyStr.strip _) eqn:?; [contradiction|].

Ltac keyword H :=
  let t := fresh "t" in
  apply PyStrFacts.startswith_inv in H; destruct H as [t H]; rewrite H.

Ltac finish_reply :=
  unfold replies; unfold_monad; cbn [world inbox trace emails_processed];
  match goal with
  | |- context [sock_send ?r ?w] => destruct (sock_send r w) as [[|] ?]
  end; reflexivity.

Section Session.
Context {World : Type} {P : Platform World}.
Variables peer cid : str.

Lemma step_hello mail_from rcpt_to c rest (s : state World) :
  begins_with "EHLO" c \/ begins_with "HELO" c ->
  inbox s = Chunk c :: rest ->
  session_step peer cid mail_from rcpt_to s
  = replies (HELLO peer) (Continue mail_from rcpt_to) s rest.
Proof.
  intros [[Hne Hkw]|[Hne Hkw]] Hin; enter_step s Hin; keyword Hkw;
    decide_tests; finish_reply.
Qed.

Lemma step_mail mail_from rcpt_to c rest (s : state World) :
  begins_with "MAIL FROM:" c ->
  inbox s = Chunk c :: rest ->
  session_step peer cid mail_from rcpt_to s
  = replies OK_250 (Continue (_extract_email (PyStr.strip c)) rcpt_to) s rest.
Proof.
  intros [Hne Hkw] Hin. enter_step s Hin. keyword Hkw.
  decide_tests. finish_reply.
Qed.

Lemma step_rcpt mail_from rcpt_to c rest (s : state World) :
  begins_with "RCPT TO:" c ->
  inbox s = Chunk c :: rest ->
  session_step peer cid mail_from rcpt_to s
  = replies OK_250
      (Continue mail_from (rcpt_to ++ [_extract_email (PyStr.strip c)])) s rest.
Proof.
  intros [Hne Hkw] Hin. enter_step s Hin. keyword Hkw.
  decide_tests. finish_reply.
Qed.

Lemma step_rset mail_from rcpt_to c rest (s : state World) :
  begins_with "RSET" c ->
  inbox s = Chunk c :: rest ->
  session_step peer cid mail_from rcpt_to s
  = replies OK_250 (Continue [] []) s rest.
Proof.
  intros [Hne Hkw] Hin. enter_step s Hin. keyword Hkw.
  decide_tests. finish_reply.
Qed.

Lemma step_quit mail_from rcpt_to c rest (s : state World) :
  is_exactly "QUIT" c ->
  inbox s = Chunk c :: rest ->
  session_step peer cid mail_from rcpt_to s = replies BYE_221 Break s rest.
Proof.
  intros [Hne Hkw] Hin. enter_step s Hin. rewrite Hkw.
  decide_tests. finish_reply.
Qed.

(** A line that goes on after DATA or QUIT is not that command. *)
Lemma step_data_with_argument mail_from rcpt_to c rest (s : state World) :
  begins_with "DATA" c -> ~ is_exactly "DATA" c ->
  inbox s = Chunk c :: rest ->
  session_step peer cid mail_from rcpt_to s
  = replies UNKNOWN_500 (Continue mail_from rcpt_to) s rest.
Proof.
  intros [Hne Hkw] Hnot Hin.
  apply PyStrFacts.startswith_inv in Hkw. destruct Hkw as [t Hkw].
  destruct t as [|d t].
  - exfalso. apply Hnot. split; [exact Hne|]. now rewrite Hkw, app_nil_r.
  - enter_step s Hin. rewrite Hkw. decide_tests. finish_reply.
Qed.

Lemma step_quit_with_argument mail_from rcpt_to c rest (s : state World) :
  begins_with "QUIT" c -> ~ is_exactly "QUIT" c ->
  inbox s = Chunk c :: rest ->
  session_step peer cid mail_from rcpt_to s
  = replies UNKNOWN_500 (Continue mail_from rcpt_to) s rest.
Proof.
  intros [Hne Hkw] Hnot Hin.
  apply PyStrFacts.startswith_inv in Hkw. destruct Hkw as [t Hkw].
  destruct t as [|d t].
  - exfalso. apply Hnot. split; [exact Hne|]. now rewrite Hkw, app_nil_r.
  - enter_step s Hin. rewrite Hkw. decide_tests. finish_reply.
Qed.

(** The DATA turn when the 354 reply goes out and the body loop ends:
    the text without its last five characters goes to
    [_process_email], the message is counted, the reply is 250 or 550
    by the answer, and the envelope is empty afterwards. *)
Lemma step_data mail_from rcpt_to c items email_data rest
      (s : state World) w1 delivered s2 :
  is_exactly "DATA" c ->
  inbox s = Chunk c :: items ->
  sock_send START_354 (world s) = (true, w1) ->
  read_data_from [] items = (Ret email_data, rest) ->
  _process_email mail_from rcpt_to (PyStr.drop_last 5 email_data) cid
    {| world := w1; inbox := rest; trace := trace s ++ [Sent START_354];
       emails_processed := emails_processed s |}
  = (Ret delivered, s2) ->
  session_step peer cid mail_from rcpt_to s
  = replies (if delivered then QUEUED_250 else FAILED_550) (Continue [] [])
      {| world := world s2; inbox := inbox s2; trace := trace s2;
         emails_processed := S (emails_processed s2) |}
      (inbox s2).
Proof.
  intros [Hne Hkw] Hin H354 Hbody Hproc. enter_step s Hin. rewrite Hkw.
  decide_tests. unfold send at 1, bind at 1, bind at 1, ask, emit.
  cbn [world inbox trace emails_processed]. rewrite H354.
  cbn [world inbox trace emails_processed].
  unfold bind at 1, bind at 1, ret at 1, bind at 1, read_data.
  cbn [world inbox trace emails_processed]. rewrite Hbody.
  unfold bind at 1. rewrite Hproc. unfold count_email.
  destruct delivered; finish_reply.
Qed.

End Session.

Section SessionClaims.
Context {World : Type} {P : Platform World}.
Variables peer cid : str.

Lemma process_email_returns mail_from rcpt_to email_data (s : state World) :
  exists delivered w evs,
    _process_email mail_from rcpt_to email_data cid s
    = (Ret delivered, advance s w evs).
Proof.
  destruct (count_successes_run mail_from email_data rcpt_to 0 s)
    as (outcomes & s1 & evs & _ & Hs1 & Hcount & _).
  destruct (now_isoformat (world s1)) as [now w] eqn:Hnow.
  unfold _process_email. unfold bind at 1. rewrite Hcount.
  unfold_monad. rewrite Hnow.
  eexists _, w, (evs ++ [_]). f_equal.
  rewrite Hs1. unfold advance. cbn [world inbox trace emails_processed].
  now rewrite <- app_assoc.
Qed.

(** Whatever follows, the first thing the DATA turn does is to send
    the 354 reply. *)
Lemma step_data_first_reply mail_from rcpt_to c rest (s : state World) :
  is_exactly "DATA" c ->
  inbox s = Chunk c :: rest ->
  exists evs,
    trace (snd (session_step peer cid mail_from rcpt_to s))
    = trace s ++ Sent START_354 :: evs.
Proof.
  intros [Hne Hkw] Hin. enter_step s Hin. rewrite Hkw. decide_tests.
  unfold send at 1, bind at 1, bind at 1, ask, emit.
  cbn [world inbox trace emails_processed].
  destruct (sock_send START_354 w) as [[|] w1].
  2:{ exists []. reflexivity. }
  cbn [world inbox trace emails_processed].
  unfold bind at 1, bind at 1, ret at 1, bind at 1, read_data.
  cbn [world inbox trace emails_processed].
  destruct (read_data_from [] rest) as [[email_data| |] rest'];
    try (exists []; reflexivity).
  match goal with
  | |- context [_process_email ?a ?b ?d cid ?s1] =>
      destruct (process_email_returns a b d s1) as (b0 & w2 & e2 & Hrun)
  end.
  unfold bind at 1. rewrite Hrun. unfold count_email, advance.
  cbn [world inbox trace emails_processed].
  destruct b0; unfold_monad; cbn [world inbox trace emails_processed];
    match goal with
    | |- context [sock_send ?r ?w] => destruct (sock_send r w) as [[|] ?]
    end;
    cbn [snd trace]; eexists; rewrite <- !app_assoc; reflexivity.
Qed.

(** C7, as the code has it.  EHLO, HELO, MAIL FROM:, RCPT TO: and
    RSET are recognised by the leading keyword of the stripped,
    upper-cased line.  DATA and QUIT are recognised when the stripped,
    upper-cased line is the keyword and nothing more: DATA is then
    answered 354 and, once the body loop has ended, 250 or 550 by the
    answer of [_process_email]; QUIT is answered 221 and ends the
    command loop.  A line that goes on after DATA or QUIT is answered
    500. *)
Theorem command_recognition mail_from rcpt_to c rest (s : state World) :
  inbox s = Chunk c :: rest ->
  (begins_with "EHLO" c \/ begins_with "HELO" c ->
     session_step peer cid mail_from rcpt_to s
     = replies (HELLO peer) (Continue mail_from rcpt_to) s rest)
  /\ (begins_with "MAIL FROM:" c ->
      session_step peer cid mail_from rcpt_to s
      = replies OK_250
          (Continue (_extract_email (PyStr.strip c)) rcpt_to) s rest)
  /\ (begins_with "RCPT TO:" c ->
      session_step peer cid mail_from rcpt_to s
      = replies OK_250
          (Continue mail_from (rcpt_to ++ [_extract_email (PyStr.strip c)]))
          s rest)
  /\ (begins_with "RSET" c ->
      session_step peer cid mail_from rcpt_to s
      = replies OK_250 (Continue [] []) s rest)
  /\ (is_exactly "DATA" c ->
      (exists evs,
          trace (snd (session_step peer cid mail_from rcpt_to s))
          = trace s ++ Sent START_354 :: evs)
      /\ forall w1 email_data rest',
          sock_send START_354 (world s) = (true, w1) ->
          read_data_from [] rest = (Ret email_data, rest') ->
          exists delivered s2,
            _process_email mail_from rcpt_to
              (PyStr.drop_last 5 email_data) cid
              {| world := w1; inbox := rest';
                 trace := trace s ++ [Sent START_354];
                 emails_processed := emails_processed s |}
            = (Ret delivered, s2)
            /\ session_step peer cid mail_from rcpt_to s
               = replies (if delivered then QUEUED_250 else FAILED_550)
                   (Continue [] [])
                   {| world := world s2; inbox := inbox s2;
                      trace := trace s2;
                      emails_processed := S (emails_processed s2) |}
                   (inbox s2))
  /\ (is_exactly "QUIT" c ->
      session_step peer cid mail_from rcpt_to s = replies BYE_221 Break s rest
      /\ forall turns,
          session_loop (S turns) peer cid mail_from rcpt_to s
          = (Ret tt, snd (replies BYE_221 Break s rest)))
  /\ (begins_with "DATA" c -> ~ is_exactly "DATA" c ->
      session_step peer cid mail_from rcpt_to s
      = replies UNKNOWN_500 (Continue mail_from rcpt_to) s rest)
  /\ (begins_with "QUIT" c -> ~ is_exactly "QUIT" c ->
      session_step peer cid mail_from rcpt_to s
      = replies UNKNOWN_500 (Continue mail_from rcpt_to) s rest).
Proof.
  intro Hin. repeat match goal with |- _ /\ _ => split end.
  - intro H. now apply (step_hello peer cid mail_from rcpt_to c rest s).
  - intro H. now apply (step_mail peer cid mail_from rcpt_to c rest s).
  - intro H. now apply (step_rcpt peer cid mail_from rcpt_to c rest s).
  - intro H. now apply (step_rset peer cid mail_from rcpt_to c rest s).
  - intro H. split.
    + now apply (step_data_first_reply mail_from rcpt_to c rest s).
    + intros w1 email_data rest' H354 Hbody.
      match goal with
      | |- context [_process_email ?a ?b ?d cid ?s1] =>
          destruct (process_email_returns a b d s1) as (b0 & w2 & e2 & Hrun)
      end.
      eexists b0, _. split; [exact Hrun|].
      now apply (step_data peer cid mail_from rcpt_to c rest email_data rest'
                           s w1 b0 _ H Hin H354 Hbody).
  - intro H. split.
    + now apply (step_quit peer cid mail_from rcpt_to c rest s).
    + intro turns. cbn [session_loop]. unfold bind.
      rewrite (step_quit peer cid mail_from rcpt_to c rest s H Hin).
      unfold replies. destruct (sock_send BYE_221 (world s)) as [[|] w1];
        reflexivity.
  - intros H Hn. now apply (step_data_with_argument peer cid mail_from rcpt_to c rest s).
  - intros H Hn. now apply (step_quit_with_argument peer cid mail_from rcpt_to c rest s).
Qed.

(** C8.  A line that begins with RSET empties the envelope and is
    answered 250, from whatever envelope; a second one right after it
    does the same; and the turn is the same from an empty envelope as
    from any other. *)
Theorem rset_twice mail_from rcpt_to c1 c2 rest (s : state World) w1 w2 :
  begins_with "RSET" c1 -> begins_with "RSET" c2 ->
  inbox s = Chunk c1 :: Chunk c2 :: rest ->
  sock_send OK_250 (world s) = (true, w1) ->
  sock_send OK_250 w1 = (true, w2) ->
  let s1 := {| world := w1; inbox := Chunk c2 :: rest;
               trace := trace s ++ [Sent OK_250];
               emails_processed := emails_processed s |} in
  let s2 := {| world := w2; inbox := rest;
               trace := trace s ++ [Sent OK_250; Sent OK_250];
               emails_processed := emails_processed s |} in
  session_step peer cid mail_from rcpt_to s = (Ret (Continue [] []), s1)
  /\ session_step peer cid [] [] s1 = (Ret (Continue [] []), s2)
  /\ session_step peer cid [] [] s = session_step peer cid mail_from rcpt_to s
  /\ forall turns,
      session_loop (S (S turns)) peer cid mail_from rcpt_to s
      = session_loop turns peer cid [] [] s2.
Proof.
  intros H1 H2 Hin Hs1 Hs2 s1 s2.
  assert (E1 : forall mf rt,
             session_step peer cid mf rt s = (Ret (Continue [] []), s1)).
  { intros mf rt. rewrite (step_rset peer cid mf rt c1 _ s H1 Hin).
    unfold replies. now rewrite Hs1. }
  assert (E2 : session_step peer cid [] [] s1 = (Ret (Continue [] []), s2)).
  { rewrite (step_rset peer cid [] [] c2 rest s1 H2 eq_refl).
    unfold replies, s1, s2. cbn [world inbox trace emails_processed].
    rewrite Hs2. now rewrite <- app_assoc. }
  repeat split.
  - apply E1.
  - exact E2.
  - now rewrite !E1.
  - intro turns. cbn [session_loop]. unfold bind at 1. rewrite E1.
    unfold bind at 1. now rewrite E2.
Qed.

(** C9.  A DATA turn with no recipient in the envelope: once the body
    loop has ended, no lookup and no outbound session takes place,
    [_process_email] answers failure and writes one record, with
    [success] false and [total_targets] 0, the reply is 550, the
    message is counted and the envelope is empty afterwards. *)
Theorem data_without_recipients
        mail_from c items email_data rest (s : state World) w1 now w2 w3 :
  is_exactly "DATA" c ->
  inbox s = Chunk c :: items ->
  read_data_from [] items = (Ret email_data, rest) ->
  sock_send START_354 (world s) = (true, w1) ->
  now_isoformat w1 = (now, w2) ->
  sock_send FAILED_550 w2 = (true, w3) ->
  let record :=
    relay_record now mail_from [] (PyStr.drop_last 5 email_data) cid 0 in
  _process_email mail_from [] (PyStr.drop_last 5 email_data) cid
    {| world := w1; inbox := rest; trace := trace s ++ [Sent START_354];
       emails_processed := emails_processed s |}
  = (Ret false,
     {| world := w2; inbox := rest;
        trace := (trace s ++ [Sent START_354]) ++ [Recorded record];
        emails_processed := emails_processed s |})
  /\ session_step peer cid mail_from [] s
     = (Ret (Continue [] []),
        {| world := w3; inbox := rest;
           trace := trace s
                    ++ [Sent START_354; Recorded record; Sent FAILED_550];
           emails_processed := S (emails_processed s) |})
  /\ success record = false
  /\ total_targets (details record) = 0.
Proof.
  intros Hd Hin Hbody H354 Hnow H550 record.
  assert (Hproc :
    _process_email mail_from [] (PyStr.drop_last 5 email_data) cid
      {| world := w1; inbox := rest; trace := trace s ++ [Sent START_354];
         emails_processed := emails_processed s |}
    = (Ret false,
       {| world := w2; inbox := rest;
          trace := (trace s ++ [Sent START_354]) ++ [Recorded record];
          emails_processed := emails_processed s |})).
  { unfold _process_email. cbn [count_successes]. unfold_monad.
    cbn [world inbox trace emails_processed]. now rewrite Hnow. }
  repeat split; [exact Hproc|].
  rewrite (step_data peer cid mail_from [] c items email_data rest s w1
                     false _ Hd Hin H354 Hbody Hproc).
  unfold replies. cbn [world inbox trace emails_processed].
  rewrite H550. now rewrite <- !app_assoc.
Qed.

End SessionClaims.

(** ** The body loop *)

Section Body.
Import PyStr.

(** The loop ends at the first chunk that itself ends with the
    marker; the text it gives is everything received up to there. *)
Lemma read_data_from_ret items :
  forall acc email_data rest,
    read_data_from acc items = (Ret email_data, rest) ->
    exists earlier line,
      items = map Chunk earlier ++ Chunk line :: rest
      /\ Forall (fun l => endswith l TERMINATOR = false) earlier
      /\ endswith line TERMINATOR = true
      /\ email_data = acc ++ List.concat earlier ++ line.
Proof.
  induction items as [|item items IH]; intros acc d rest H; simpl in H;
    [discriminate|].
  destruct item as [line|]; [|discriminate].
  destruct (endswith line TERMINATOR) eqn:E.
  - injection H as <- <-. exists [], line. simpl. auto.
  - destruct (IH _ _ _ H) as (earlier & last_line & -> & Hall & Hend & ->).
    exists (line :: earlier), last_line. simpl.
    repeat split; auto. now rewrite <- !app_assoc.
Qed.

(** What the loop gives ends with the marker, and [email_data[:-5]]
    is that text without the marker. *)
Lemma read_data_from_stripped items acc email_data rest :
  read_data_from acc items = (Ret email_data, rest) ->
  endswith email_data TERMINATOR = true
  /\ email_data = drop_last 5 email_data ++ TERMINATOR.
Proof.
  intro H.
  destruct (read_data_from_ret _ _ _ _ H) as (earlier & line & _ & _ & Hend & ->).
  apply PyStrFacts.endswith_iff in Hend. destruct Hend as [body ->].
  rewrite !app_assoc. split.
  - apply PyStrFacts.endswith_iff. eauto.
  - change 5 with (List.length TERMINATOR).
    now rewrite PyStrFacts.drop_last_app.
Qed.

(** A chunk that does not itself end with the marker sends the loop
    to the next [recv], whatever the text received so far ends with. *)
Lemma read_data_from_goes_on acc line items :
  endswith line TERMINATOR = false ->
  read_data_from acc (Chunk line :: items)
  = read_data_from (acc ++ line) items.
Proof. intro H. simpl. now rewrite H. Qed.

End Body.

(** C1, where the code departs from it.  The marker arrives in two
    chunks: the text received ends with it, yet the body loop goes on
    reading, takes the QUIT line that follows as more of the body and
    waits; the dispatcher is never called. *)
Theorem data_marker_split_over_chunks :
  let chunks : list str :=
    [("Subject: hi" : str) ++ CRLF; ("." : str) ++ CRLF] in
  PyStr.endswith (List.concat chunks) TERMINATOR = true
  /\ read_data_from [] (map Chunk chunks) = (Blocked, [])
  /\ session_step (P := Lab.platform)
       "198.51.100.7" "198.51.100.7:4242" "a@x" [pystr "b@example.com"]
       (Lab.start (Chunk (("DATA" : str) ++ CRLF) :: map Chunk chunks
                   ++ [Chunk (("QUIT" : str) ++ CRLF)]))
     = (Blocked, {| world := 0; inbox := []; trace := [Sent START_354];
                    emails_processed := 0 |}).
Proof. cbv zeta. repeat split; vm_compute; reflexivity. Qed.

(** ** The command loop *)

Create HintDb settles.

Section Loop.
Context {World : Type} {P : Platform World}.

Lemma settles_ret A (a : A) : settles (World := World) (ret a).
Proof. intro s. simpl. lia. Qed.

Lemma settles_raise A : settles (World := World) (raise A).
Proof. intro s. simpl. lia. Qed.

Lemma settles_bind A B (m : M World A) (k : A -> M World B) :
  settles m -> (forall a, settles (k a)) -> settles (bind m k).
Proof.
  intros Hm Hk s. unfold bind. specialize (Hm s).
  destruct (m s) as [[a| |] s1]; simpl in *; try lia.
  specialize (Hk a s1). lia.
Qed.

Lemma settles_try A (m h : M World A) :
  settles m -> settles h -> settles (try_except m h).
Proof.
  intros Hm Hh s. unfold try_except. specialize (Hm s).
  destruct (m s) as [[a| |] s1]; simpl in *; try lia.
  specialize (Hh s1). lia.
Qed.

Lemma settles_if A (b : bool) (m1 m2 : M World A) :
  settles m1 -> settles m2 -> settles (if b then m1 else m2).
Proof. now destruct b. Qed.

Lemma settles_send data : settles (send data).
Proof.
  intro s. unfold_monad. destruct (sock_send data (world s)) as [[|] w];
    simpl; lia.
Qed.

Lemma settles_count_email : settles (World := World) count_email.
Proof. intro s. simpl. lia. Qed.

Lemma read_data_from_length items :
  forall acc, List.length (snd (read_data_from acc items)) <= List.length items.
Proof.
  induction items as [|[line|] items IH]; intro acc; simpl; try lia.
  destruct (PyStr.endswith line TERMINATOR); simpl; [lia|].
  specialize (IH (acc ++ line)). lia.
Qed.

Lemma settles_read_data : settles (World := World) read_data.
Proof.
  intro s. unfold read_data.
  pose proof (read_data_from_length (inbox s) []) as H.
  destruct (read_data_from [] (inbox s)). simpl in *. exact H.
Qed.

Lemma settles_process_email mail_from rcpt_to email_data cid :
  settles (_process_email mail_from rcpt_to email_data cid).
Proof.
  intro s.
  destruct (process_email_returns cid mail_from rcpt_to email_data s)
    as (b & w & evs & ->).
  simpl. lia.
Qed.

#[local] Hint Resolve settles_ret settles_raise settles_send
  settles_count_email settles_read_data settles_process_email : settles.

(** A turn that goes on has taken something from the inbox. *)
Lemma session_step_consumes peer cid mail_from rcpt_to (s s' : state World)
      mail_from' rcpt_to' :
  session_step peer cid mail_from rcpt_to s
  = (Ret (Continue mail_from' rcpt_to'), s') ->
  List.length (inbox s') < List.length (inbox s).
Proof.
  unfold session_step, try_except, bind at 1, recv.
  destruct (inbox s) as [|[chunk|] rest] eqn:Hin; [discriminate| |discriminate].
  match goal with
  | |- context [?k {| world := world s; inbox := rest; trace := trace s;
                      emails_processed := emails_processed s |}] =>
      assert (Hk : settles k)
  end.
  { destruct (PyStr.strip chunk); [auto with settles|].
    repeat first
      [ solve [auto with settles]
      | apply settles_if
      | apply settles_bind; [|intro] ]. }
  match goal with
  | |- context [?k {| world := world s; inbox := rest; trace := trace s;
                      emails_processed := emails_processed s |}] =>
      specialize (Hk {| world := world s; inbox := rest; trace := trace s;
                        emails_processed := emails_processed s |});
      destruct (k {| world := world s; inbox := rest; trace := trace s;
                     emails_processed := emails_processed s |})
        as [[f| |] s1]
  end; cbn [snd inbox] in Hk; intro H; try discriminate.
  injection H as _ <-. simpl. lia.
Qed.

(** One turn more than the inbox is long is as good as any number of
    turns above it: the loop never runs out of turns. *)
Lemma session_loop_turns peer cid n :
  forall m mail_from rcpt_to (s : state World),
    List.length (inbox s) < n -> List.length (inbox s) < m ->
    session_loop n peer cid mail_from rcpt_to s
    = session_loop m peer cid mail_from rcpt_to s.
Proof.
  induction n as [|n IH]; intros m mail_from rcpt_to s Hn Hm; [lia|].
  destruct m as [|m]; [lia|].
  cbn [session_loop]. unfold bind.
  destruct (session_step peer cid mail_from rcpt_to s) as [[[|mf rt]| |] s1] eqn:E;
    try reflexivity.
  apply session_step_consumes in E. apply IH; lia.
Qed.

(** The command loop does not raise, and [_handle_client] closes the
    socket whenever the loop is left. *)
Lemma session_loop_no_raise peer cid n :
  forall mail_from rcpt_to (s : state World),
    fst (session_loop n peer cid mail_from rcpt_to s) <> Raise.
Proof.
  induction n as [|n IH]; intros mail_from rcpt_to s; [discriminate|].
  cbn [session_loop]. unfold bind.
  destruct (session_step peer cid mail_from rcpt_to s) as [[[|mf rt]| |] s1] eqn:E;
    try discriminate.
  - apply IH.
  - exfalso. revert E. unfold session_step, try_except.
    match goal with
    | |- context [match ?m with _ => _ end] => destruct m as [[?| |] ?]
    end; discriminate.
Qed.

(** [close()] is attempted once, and raises on what the socket layer
    raises. *)
Lemma close_run (s : state World) :
  exists ok w,
    sock_close (world s) = (ok, w)
    /\ close s = ((if ok then Ret tt else Raise), advance s w [Closed]).
Proof.
  unfold close, bind, ask, emit, ret, raise, advance.
  destruct (sock_close (world s)) as [[|] w]; [exists true, w|exists false, w];
    split; reflexivity.
Qed.

Lemma handle_client_closes peer cid (s s' : state World) r :
  _handle_client peer cid s = (r, s') ->
  r = Blocked
  \/ exists ok w evs,
       sock_close w = (ok, world s')
       /\ r = (if ok then Ret tt else Raise)
       /\ trace s' = evs ++ [Closed].
Proof.
  unfold _handle_client, bind at 1, try_except.
  destruct (bind (send GREETING) _ s) as [[[]| |] s1]; unfold ret.
  - destruct (close_run s1) as (ok & w & Hc & ->). intro H.
    injection H as <- <-. right. exists ok, (world s1), (trace s1).
    repeat split. exact Hc.
  - destruct (close_run s1) as (ok & w & Hc & ->). intro H.
    injection H as <- <-. right. exists ok, (world s1), (trace s1).
    repeat split. exact Hc.
  - intro H. injection H as <- <-. now left.
Qed.

End Loop.

(** * The properties on the laboratory platform *)

Import Lab.

Ltac absent := vm_compute; intuition congruence.

(** C7, as the specification words it, fails on a line that goes on
    after the keyword: its upper-cased form begins with DATA, or with
    QUIT, and the answer is 500; no body is read and the session stays
    open. *)
Lemma data_and_quit_need_the_whole_line :
  let s := Lab.start [Chunk "data now"; Chunk "quit now"] in
  PyStr.startswith (str_upper (PyStr.strip "data now")) "DATA" = true
  /\ PyStr.startswith (str_upper (PyStr.strip "quit now")) "QUIT" = true
  /\ session_step (P := Lab.platform) "198.51.100.7" "198.51.100.7:4242"
       "a@x" [pystr "b@y"] s
     = (Ret (Continue "a@x" [pystr "b@y"]),
        {| world := 0; inbox := [Chunk "quit now"];
           trace := [Sent UNKNOWN_500]; emails_processed := 0 |})
 /\ session_loop (P := Lab.platform) 3 "198.51.100.7" "198.51.100.7:4242"
       "a@x" [pystr "b@y"] s
     = (Blocked,
        {| world := 0; inbox := [];
           trace := [Sent UNKNOWN_500; Sent UNKNOWN_500];
           emails_processed := 0 |}).
Proof. cbv zeta. repeat split; vm_compute; reflexivity. Qed.

(** Three candidates, the second takes the message: the third is never
    contacted.  Two candidates that both refuse: both are tried. *)
Lemma relay_stops_at_first_success_witness :
  _relay_email "a@x" "b@example.com" "hi" (start [])
  = (Ret true,
     {| world := 2; inbox := [];
        trace := [ MxQuery "example.com" true;
                   attempt "a@x" "b@example.com" "hi" false "mx-a.example.com";
                   attempt "a@x" "b@example.com" "hi" true "mx-b.example.com" ];
        emails_processed := 0 |})
  /\ _relay_email "a@x" "b@x" "hi" (start [])
     = (Ret false,
        {| world := 2; inbox := [];
           trace := [ MxQuery "x" true;
                      attempt "a@x" "b@x" "hi" false "mx0.x";
                      attempt "a@x" "b@x" "hi" false "mx1.x" ];
           emails_processed := 0 |}).
Proof.
  split.
  - assert (Hd : nth_error (PyStr.split_on "@" "b@example.com") 1
                 = Some (pystr "example.com")) by reflexivity.
    assert (Hmx : _get_mx_servers "example.com" (start [])
                  = (Ret [pystr "mx-a.example.com"; pystr "mx-b.example.com";
                          pystr "backup.example.com"],
                     {| world := 0; inbox := [];
                        trace := [MxQuery "example.com" true];
                        emails_processed := 0 |}))
      by (vm_compute; reflexivity).
    apply (proj1 (relay_stops_at_first_success
                    "a@x" "b@example.com" "hi" "example.com" _ _ _ Hd Hmx)
                 [pystr "mx-a.example.com"] "mx-b.example.com"
                 [pystr "backup.example.com"] 1 2 eq_refl).
    + eapply all_fail_cons; [reflexivity|apply all_fail_nil].
    + reflexivity.
  - assert (Hd : nth_error (PyStr.split_on "@" "b@x") 1 = Some (pystr "x"))
      by reflexivity.
    assert (Hmx : _get_mx_servers "x" (start [])
                  = (Ret [pystr "mx0.x"; pystr "mx1.x"],
                     {| world := 0; inbox := []; trace := [MxQuery "x" true];
                        emails_processed := 0 |}))
      by (vm_compute; reflexivity).
    apply (proj2 (relay_stops_at_first_success
                    "a@x" "b@x" "hi" "x" _ _ _ Hd Hmx) 2).
    eapply all_fail_cons; [reflexivity|].
    eapply all_fail_cons; [reflexivity|apply all_fail_nil].
Defined.

Lemma relay_without_at_sign_fails_witness :
  _relay_email "a@x" "nodomain" "hi" (start []) = (Ret false, start []).
Proof.
  apply (relay_without_at_sign_fails
           (pystr "a@x") (pystr "nodomain") (pystr "hi") (start [])).
  absent.
Defined.

Lemma extract_email_cases_witness :
  (exists pre post,
      first_span "RCPT TO:<bob@example.com>" pre
                 (_extract_email "RCPT TO:<bob@example.com>") post)
  /\ _extract_email "MAIL FROM: alice@example.com"
     = PyStr.strip_chars "<>"
         (last (PyStr.split "MAIL FROM: alice@example.com") [])
  /\ _extract_email "NOOP" = [].
Proof.
  split; [|split].
  - apply (proj1 (extract_email_cases "RCPT TO:<bob@example.com>")
                 (pystr "bob@example.com")).
    + exists (pystr "RCPT TO:"), []. split; [reflexivity|discriminate].
    + absent.
  - apply (proj1 (proj2 (extract_email_cases "MAIL FROM: alice@example.com"))).
    + intros g Hg. exfalso. revert Hg. apply ReFacts.no_bracket_no_span. absent.
    + vm_compute. lia.
  - apply (proj2 (proj2 (extract_email_cases "NOOP"))).
    + intros g Hg. exfalso. revert Hg. apply ReFacts.no_bracket_no_span. absent.
    + vm_compute. lia.
Defined.

Lemma mx_servers_by_preference_witness :
  exists ordered,
    _get_mx_servers "x" (start [])
    = (Ret (map host_name ordered), advance (start []) 0 [MxQuery "x" true])
    /\ Permutation [ {| preference := 10; exchange := "mx1.x" |};
                     {| preference := 5; exchange := "mx0.x" |} ] ordered
    /\ StronglySorted (fun a b => preference a <= preference b) ordered
    /\ (forall p, filter (has_preference p) ordered
                  = filter (has_preference p)
                      [ {| preference := 10; exchange := "mx1.x" |};
                        {| preference := 5; exchange := "mx0.x" |} ])
    /\ Forall (fun mx => exists dots,
                 exchange mx = host_name mx ++ repeat "."%char dots
                 /\ PyStr.endswith (host_name mx) "." = false) ordered.
Proof.
  exact (mx_servers_by_preference "x"
           [ {| preference := 10; exchange := "mx1.x" |};
             {| preference := 5; exchange := "mx0.x" |} ]
           (start []) 0 eq_refl).
Defined.

Lemma mx_servers_fallback_witness :
  _get_mx_servers "corp.test" (start [])
  = (Ret [pystr "mail.corp.test"; pystr "mx1.corp.test"],
     {| world := 0; inbox := [];
        trace := [ MxQuery "corp.test" false;
                   Probe "mail.corp.test" true;
                   Probe "mx.corp.test" false;
                   Probe "mx1.corp.test" true ];
        emails_processed := 0 |}).
Proof.
  exact (mx_servers_fallback "corp.test" (start []) 0 true 0 false 0 true 0
           eq_refl eq_refl eq_refl eq_refl).
Defined.

Lemma command_recognition_witness :
  (let s := start [Chunk (("quit" : str) ++ CRLF)] in
   session_step "198.51.100.7" "198.51.100.7:4242" [] [] s
   = replies BYE_221 Break s []
   /\ forall turns,
       session_loop (S turns) "198.51.100.7" "198.51.100.7:4242" [] [] s
       = (Ret tt, snd (replies BYE_221 Break s [])))
  /\ (let s := start [Chunk (("helo relay.test" : str) ++ CRLF)] in
      session_step "198.51.100.7" "198.51.100.7:4242" [] [] s
      = replies (HELLO "198.51.100.7") (Continue [] []) s [])
  /\ (let s := start [Chunk (("Data" : str) ++ CRLF);
                      Chunk (("hello" : str) ++ TERMINATOR)] in
      exists evs,
        trace (snd (session_step "198.51.100.7" "198.51.100.7:4242"
                      "a@x" [pystr "b@example.com"] s))
        = trace s ++ Sent START_354 :: evs).
Proof.
  split; [|split]; cbv zeta.
  - apply (command_recognition
             "198.51.100.7" "198.51.100.7:4242" [] []
             (("quit" : str) ++ CRLF) [] (start [Chunk (("quit" : str) ++ CRLF)])
             eq_refl).
    split; [vm_compute; discriminate|reflexivity].
  - apply (command_recognition
             "198.51.100.7" "198.51.100.7:4242" [] []
             (("helo relay.test" : str) ++ CRLF) []
             (start [Chunk (("helo relay.test" : str) ++ CRLF)]) eq_refl).
    right. split; [vm_compute; discriminate|reflexivity].
  - apply (command_recognition
             "198.51.100.7" "198.51.100.7:4242" "a@x" [pystr "b@example.com"]
             (("Data" : str) ++ CRLF) [Chunk (("hello" : str) ++ TERMINATOR)]
             (start [Chunk (("Data" : str) ++ CRLF);
                     Chunk (("hello" : str) ++ TERMINATOR)]) eq_refl).
    split; [vm_compute; discriminate|reflexivity].
Defined.

Lemma rset_twice_witness :
  let s := start [Chunk (("RSET" : str) ++ CRLF); Chunk (("rset" : str) ++ CRLF)] in
  let s1 := {| world := 0; inbox := [Chunk (("rset" : str) ++ CRLF)];
               trace := [Sent OK_250]; emails_processed := 0 |} in
  let s2 := {| world := 0; inbox := [];
               trace := [Sent OK_250; Sent OK_250]; emails_processed := 0 |} in
  session_step "198.51.100.7" "198.51.100.7:4242" "a@x" [pystr "b@y"] s
  = (Ret (Continue [] []), s1)
  /\ session_step "198.51.100.7" "198.51.100.7:4242" [] [] s1
     = (Ret (Continue [] []), s2)
  /\ session_step "198.51.100.7" "198.51.100.7:4242" [] [] s
     = session_step "198.51.100.7" "198.51.100.7:4242" "a@x" [pystr "b@y"] s
  /\ forall turns,
      session_loop (S (S turns)) "198.51.100.7" "198.51.100.7:4242"
                   "a@x" [pystr "b@y"] s
      = session_loop turns "198.51.100.7" "198.51.100.7:4242" [] [] s2.
Proof.
  apply (rset_twice "198.51.100.7" "198.51.100.7:4242" "a@x" [pystr "b@y"]
                    (("RSET" : str) ++ CRLF) (("rset" : str) ++ CRLF) []
                    (start [Chunk (("RSET" : str) ++ CRLF);
                            Chunk (("rset" : str) ++ CRLF)]) 0 0).
  - split; [vm_compute; discriminate|reflexivity].
  - split; [vm_compute; discriminate|reflexivity].
  - reflexivity.
  - reflexivity.
  - reflexivity.
Defined.

Lemma data_without_recipients_witness :
  let s := start [Chunk (("DATA" : str) ++ CRLF);
                  Chunk (("hello" : str) ++ TERMINATOR)] in
  let record :=
    relay_record "2024-01-01T00:00:00" "a@x" [] "hello" "198.51.100.7:4242" 0 in
  session_step "198.51.100.7" "198.51.100.7:4242" "a@x" [] s
  = (Ret (Continue [] []),
     {| world := 0; inbox := [];
        trace := [Sent START_354; Recorded record; Sent FAILED_550];
        emails_processed := 1 |})
  /\ success record = false
  /\ total_targets (details record) = 0.
Proof.
  apply (data_without_recipients
           "198.51.100.7" "198.51.100.7:4242" "a@x" (("DATA" : str) ++ CRLF)
           [Chunk (("hello" : str) ++ TERMINATOR)]
           (("hello" : str) ++ TERMINATOR) []
           (start [Chunk (("DATA" : str) ++ CRLF);
                   Chunk (("hello" : str) ++ TERMINATOR)])
           0 "2024-01-01T00:00:00" 0 0).
  - split; [vm_compute; discriminate|reflexivity].
  - reflexivity.
  - reflexivity.
  - reflexivity.
  - reflexivity.
  - reflexivity.
Defined.


(** ** Runs *)

Example extract_bracketed :
  _extract_email "RCPT TO:<bob@example.com>" = "bob@example.com".
Proof. reflexivity. Qed.

Example extract_unbracketed :
  _extract_email "MAIL FROM: alice@example.com" = "alice@example.com".
Proof. reflexivity. Qed.

Example extract_single_token : _extract_email "NOOP" = "".
Proof. reflexivity. Qed.

Example extract_leftmost_bracket : _extract_email "x <<a> <b>" = "<a".
Proof. reflexivity. Qed.

Example domain_is_second_field :
  nth_error (PyStr.split_on "@" "b@example.com") 1 = Some (pystr "example.com")
  /\ nth_error (PyStr.split_on "@" "nodomain") 1 = None.
Proof. split; reflexivity. Qed.

Example mx_order :
  fst (_get_mx_servers "x" (start [])) = Ret [pystr "mx0.x"; pystr "mx1.x"].
Proof. vm_compute. reflexivity. Qed.

Example mx_ties_keep_their_order :
  fst (_get_mx_servers "example.com" (start []))
  = Ret [pystr "mx-a.example.com"; pystr "mx-b.example.com";
         pystr "backup.example.com"].
Proof. vm_compute. reflexivity. Qed.

(** A whole session: greeting, EHLO, MAIL FROM, RCPT TO, DATA with its
    body in one chunk, QUIT. *)
Example whole_session :
  let peer_says :=
    [ Chunk (("EHLO client.test" : str) ++ CRLF);
      Chunk (("mail from:<a@x>" : str) ++ CRLF);
      Chunk (("RCPT TO:<b@example.com>" : str) ++ CRLF);
      Chunk (("DATA" : str) ++ CRLF);
      Chunk (("Subject: hi" : str) ++ CRLF ++ ("hello" : str) ++ TERMINATOR);
      Chunk (("QUIT" : str) ++ CRLF) ] in
  let run := _handle_client "198.51.100.7" "198.51.100.7:4242" (start peer_says) in
  fst run = Ret tt
  /\ replies_of (trace (snd run))
     = [ GREETING; HELLO "198.51.100.7"; OK_250; OK_250; START_354;
         QUEUED_250; BYE_221 ]
  /\ map success (records_of (trace (snd run))) = [true]
  /\ map (fun r => total_targets (details r)) (records_of (trace (snd run))) = [1]
  /\ last (trace (snd run)) Closed = Closed
  /\ emails_processed (snd run) = 1
  /\ inbox (snd run) = [].
Proof. cbv zeta. repeat split; vm_compute; reflexivity. Qed.

(** The same body sent a line at a time never ends the DATA turn. *)
Example line_at_a_time_session :
  let peer_says :=
    [ Chunk (("MAIL FROM:<a@x>" : str) ++ CRLF);
      Chunk (("RCPT TO:<b@example.com>" : str) ++ CRLF);
      Chunk (("DATA" : str) ++ CRLF);
      Chunk (("hello" : str) ++ CRLF);
      Chunk (("." : str) ++ CRLF);
      Chunk (("QUIT" : str) ++ CRLF) ] in
  let run := _handle_client "198.51.100.7" "198.51.100.7:4242" (start peer_says) in
  fst run = Blocked
  /\ replies_of (trace (snd run)) = [GREETING; OK_250; OK_250; START_354]
  /\ records_of (trace (snd run)) = [].
Proof. cbv zeta. repeat split; vm_compute; reflexivity. Qed.

(** Three recipients: every host of the first fails, the second has no
    domain, the second host of the third takes the message after the
    first has failed, and its third host is left alone. *)
Example verdicts_of_three_recipients :
  exists s1,
    dispatch_verdicts "a@x" "hello"
      [pystr "b@x"; pystr "nobody"; pystr "c@example.com"] (start [])
      [ Exhausted [pystr "mx0.x"; pystr "mx1.x"];
        NoDomain;
        Delivered [pystr "mx-a.example.com"] "mx-b.example.com"
                  [pystr "backup.example.com"] ] s1
    /\ world s1 = 4
    /\ fst (_process_email "a@x"
              [pystr "b@x"; pystr "nobody"; pystr "c@example.com"]
              "hello" "198.51.100.7:4242" (start [])) = Ret true.
Proof.
  eexists. split; [|split].
  - eapply verdicts_cons; [|eapply verdicts_cons; [|eapply verdicts_cons]].
    + eapply verdict_exhausted with (domain := pystr "x").
      * reflexivity.
      * vm_compute. reflexivity.
      * eapply all_fail_cons; [reflexivity|].
        eapply all_fail_cons; [reflexivity|]. apply all_fail_nil.
    + apply verdict_no_domain. reflexivity.
    + eapply verdict_delivered with (domain := pystr "example.com").
      * reflexivity.
      * vm_compute. reflexivity.
      * eapply all_fail_cons; [reflexivity|]. apply all_fail_nil.
      * reflexivity.
    + apply verdicts_nil.
  - reflexivity.
  - vm_compute. reflexivity.
Qed.

(** A session that ends with QUIT on a socket whose [close()] raises:
    the error leaves [_handle_client], after the attempt to close. *)
Example close_error_leaves_handle_client :
  _handle_client (P := Stale.platform) "198.51.100.7" "198.51.100.7:4242"
                 (start [Chunk (("QUIT" : str) ++ CRLF)])
  = (Raise, {| world := 0; inbox := [];
               trace := [Sent GREETING; Sent BYE_221; Closed];
               emails_processed := 0 |}).
Proof. vm_compute. reflexivity. Qed.


(** * Further properties of the server *)

(** ** Addresses between angle brackets *)

Module BracketFacts.
Import PyStr.

Lemma until_close_found (g post : str) :
  ~ In ">"%char g -> ~ In LF g ->
  Re.until_close (g ++ ">"%char :: post) = Some g.
Proof.
  induction g as [|c g IH]; intros Hc Hl; simpl.
  - reflexivity.
  - destruct (Ascii.eqb c ">") eqn:Ec.
    { apply Ascii.eqb_eq in Ec. exfalso. apply Hc. now left. }
    destruct (Ascii.eqb c LF) eqn:El.
    { apply Ascii.eqb_eq in El. exfalso. apply Hl. now left. }
    rewrite IH; [reflexivity| |]; intro H; [apply Hc|apply Hl]; now right.
Qed.

Lemma search_angle_found (pre addr post : str) :
  ~ In "<"%char pre -> addr <> [] -> ~ In ">"%char addr -> ~ In LF addr ->
  Re.search_angle (pre ++ "<"%char :: addr ++ ">"%char :: post) = Some addr.
Proof.
  intros Hpre Hne Hc Hl. induction pre as [|c pre IH]; simpl.
  - destruct addr as [|a addr]; [congruence|]. simpl.
    destruct (Ascii.eqb a LF) eqn:El.
    { apply Ascii.eqb_eq in El. exfalso. apply Hl. now left. }
    rewrite until_close_found; [reflexivity| |]; intro H;
      [apply Hc|apply Hl]; now right.
  - destruct (Ascii.eqb c "<") eqn:Ec.
    { apply Ascii.eqb_eq in Ec. exfalso. apply Hpre. now left. }
    apply IH. intro H. apply Hpre. now right.
Qed.

Lemma lstrip_by_keeps (p : ascii -> bool) (pre : str) (c : ascii) (rest : str) :
  p c = false ->
  lstrip_by p (pre ++ c :: rest) = lstrip_by p pre ++ c :: rest.
Proof.
  intro Hc. induction pre as [|d pre IH]; simpl.
  - now rewrite Hc.
  - destruct (p d); [exact IH|reflexivity].
Qed.

Lemma rstrip_by_keeps (p : ascii -> bool) (a : str) (c : ascii) (post : str) :
  p c = false ->
  rstrip_by p (a ++ c :: post) = a ++ c :: rstrip_by p post.
Proof.
  intro Hc. unfold rstrip_by.
  rewrite rev_app_distr. simpl. rewrite <- app_assoc. simpl.
  rewrite (lstrip_by_keeps p (rev post) c (rev a) Hc).
  rewrite rev_app_distr. simpl. rewrite rev_involutive.
  now rewrite <- app_assoc.
Qed.

Lemma lstrip_by_incl (p : ascii -> bool) (s : str) (x : ascii) :
  In x (lstrip_by p s) -> In x s.
Proof.
  induction s as [|c s IH]; simpl; [tauto|].
  destruct (p c); [intro H; right; now apply IH|trivial].
Qed.

Lemma rstrip_by_incl (p : ascii -> bool) (s : str) (x : ascii) :
  In x (rstrip_by p s) -> In x s.
Proof.
  unfold rstrip_by. intro H. apply in_rev in H.
  apply lstrip_by_incl in H. now apply in_rev.
Qed.

Lemma strip_by_incl (p : ascii -> bool) (s : str) (x : ascii) :
  In x (strip_by p s) -> In x s.
Proof.
  unfold strip_by. intro H. apply rstrip_by_incl in H.
  now apply lstrip_by_incl in H.
Qed.

(** Stripping the line leaves a bracketed address where it is. *)
Lemma strip_bracketed (pre addr post : str) :
  strip (pre ++ "<"%char :: addr ++ ">"%char :: post)
  = lstrip_by isspace pre ++ "<"%char :: addr ++ ">"%char :: rstrip_by isspace post.
Proof.
  unfold strip, strip_by.
  rewrite (lstrip_by_keeps isspace pre "<" _ eq_refl).
  replace (lstrip_by isspace pre ++ "<"%char :: addr ++ ">"%char :: post)
    with ((lstrip_by isspace pre ++ "<"%char :: addr) ++ ">"%char :: post)
    by (now rewrite <- app_assoc).
  rewrite (rstrip_by_keeps isspace _ ">" post eq_refl).
  now rewrite <- app_assoc.
Qed.

Lemma extract_bracketed_stripped (pre addr post : str) :
  ~ In "<"%char pre -> addr <> [] -> ~ In ">"%char addr -> ~ In LF addr ->
  _extract_email (strip (pre ++ "<"%char :: addr ++ ">"%char :: post)) = addr.
Proof.
  intros Hpre Hne Hc Hl. rewrite strip_bracketed. unfold _extract_email.
  rewrite search_angle_found; trivial.
  intro H. apply Hpre. now apply lstrip_by_incl in H.
Qed.

End BracketFacts.

Section Envelope.
Context {World : Type} {P : Platform World}.
Variables peer cid : str.

(** X1.  The address a client writes between angle brackets is the
    address the envelope gets: a MAIL FROM line sets the sender to it
    and keeps the recipients, a RCPT TO line appends it to the
    recipients and keeps the sender, whatever surrounds the brackets,
    provided no opening bracket comes before and the address holds no
    closing bracket and no line feed. *)
Theorem bracketed_address_reaches_envelope
        mail_from rcpt_to pre addr post rest (s : state World) :
  let c := pre ++ "<"%char :: addr ++ ">"%char :: post in
  ~ In "<"%char pre -> addr <> [] -> ~ In ">"%char addr -> ~ In LF addr ->
  inbox s = Chunk c :: rest ->
  (begins_with "MAIL FROM:" c ->
   session_step peer cid mail_from rcpt_to s
   = replies OK_250 (Continue addr rcpt_to) s rest)
  /\ (begins_with "RCPT TO:" c ->
      session_step peer cid mail_from rcpt_to s
      = replies OK_250 (Continue mail_from (rcpt_to ++ [addr])) s rest).
Proof.
  intros c Hpre Hne Hc Hl Hin.
  pose proof (BracketFacts.extract_bracketed_stripped pre addr post
                Hpre Hne Hc Hl) as Hx.
  fold c in Hx. split; intro Hkw.
  - rewrite (step_mail peer cid mail_from rcpt_to c rest s Hkw Hin).
    now rewrite Hx.
  - rewrite (step_rcpt peer cid mail_from rcpt_to c rest s Hkw Hin).
    now rewrite Hx.
Qed.

End Envelope.

Lemma bracketed_address_reaches_envelope_witness :
  let s := start [Chunk (("mail from: <alice@example.com> SIZE=100" : str) ++ CRLF)] in
  session_step "198.51.100.7" "198.51.100.7:4242" [] [pystr "b@y"] s
  = replies OK_250 (Continue (pystr "alice@example.com") [pystr "b@y"]) s [].
Proof.
  apply (bracketed_address_reaches_envelope
           "198.51.100.7" "198.51.100.7:4242" [] [pystr "b@y"]
           (pystr "mail from: ") (pystr "alice@example.com")
           ((" SIZE=100" : str) ++ CRLF) []
           (start [Chunk (("mail from: <alice@example.com> SIZE=100" : str)
                          ++ CRLF)])).
  - absent.
  - discriminate.
  - absent.
  - absent.
  - reflexivity.
  - split; [vm_compute; discriminate|reflexivity].
Defined.

(** X2.  The address extractor never gives a text with a line feed in
    it, whatever the line; and when no bracketed span without line feed
    is there, what it gives holds no whitespace at all, so no carriage
    return either.  The header lines [_relay_email] builds from the
    sender and the recipient cannot be broken by a line feed that came
    with the command. *)
Theorem extracted_address_has_no_line_feed (line : str) :
  ~ In LF (_extract_email line)
  /\ ((forall g, angle_span line g -> In LF g) ->
      forallb (fun c => negb (PyStr.isspace c)) (_extract_email line) = true).
Proof.
  assert (Hfallback :
    Re.search_angle line = None ->
    forallb (fun c => negb (PyStr.isspace c)) (_extract_email line) = true).
  { intro Hnone. unfold _extract_email. rewrite Hnone. cbv zeta.
    destruct (1 <? List.length (PyStr.split line)); [|reflexivity].
    apply forallb_forall. intros x Hx.
    apply BracketFacts.strip_by_incl in Hx.
    pose proof (PyStrFacts.split_tokens line) as Htok.
    destruct (PyStr.split line) as [|t ts] eqn:Es; [contradiction|].
    assert (Hlast : In (last (t :: ts) []) (t :: ts)).
    { clear. revert t. induction ts as [|u ts IH]; intro t.
      - now left.
      - right. apply (IH u). }
    rewrite Forall_forall in Htok. destruct (Htok _ Hlast) as [_ Hns].
    rewrite forallb_forall in Hns. now apply Hns. }
  split.
  - destruct (Re.search_angle line) as [g|] eqn:E.
    + unfold _extract_email. rewrite E.
      destruct (ReFacts.search_angle_some _ _ E) as (pre & post & _ & _ & Hl & _).
      exact Hl.
    + intro Hin. specialize (Hfallback eq_refl).
      rewrite forallb_forall in Hfallback. specialize (Hfallback _ Hin).
      discriminate.
  - intro Hall. apply Hfallback.
    now apply ReFacts.search_angle_none_iff.
Qed.

Lemma extracted_address_has_no_line_feed_witness :
  forallb (fun c => negb (PyStr.isspace c))
          (_extract_email (("RCPT TO: bob@example.com" : str) ++ CRLF))
  = true.
Proof.
  apply (proj2 (extracted_address_has_no_line_feed
                  (("RCPT TO: bob@example.com" : str) ++ CRLF))).
  intros g Hg. exfalso. revert Hg. apply ReFacts.no_bracket_no_span. absent.
Defined.

(** ** What the dispatcher touches *)

Section Network.
Context {World : Type} {P : Platform World}.

Lemma probe_fallbacks_net fallbacks :
  forall working (s : state World),
  exists hosts w evs,
    probe_fallbacks fallbacks working s = (Ret hosts, advance s w evs)
    /\ forallb network_event evs = true.
Proof.
  induction fallbacks as [|mx rest IH]; intros working s.
  - exists working, (world s), []. simpl. unfold ret.
    now rewrite advance_same.
  - cbn [probe_fallbacks]. unfold_monad.
    destruct (gethostbyname mx (world s)) as [ok w1] eqn:E.
    destruct ok;
      match goal with
      | |- context [probe_fallbacks rest ?acc ?s1] =>
          destruct (IH acc s1) as (hosts & w & evs & Hrun & Hev)
      end;
      rewrite Hrun;
      [exists hosts, w, (Probe mx true :: evs)
      |exists hosts, w, (Probe mx false :: evs)];
      (split; [f_equal; unfold advance; simpl; now rewrite <- app_assoc
              |exact Hev]).
Qed.

Lemma get_mx_servers_net domain (s : state World) :
  exists hosts w ok evs,
    _get_mx_servers domain s
    = (Ret hosts, advance s w (MxQuery domain ok :: evs))
    /\ forallb network_event evs = true.
Proof.
  unfold _get_mx_servers. unfold_monad.
  destruct (resolve_mx domain (world s)) as [[records|] w0] eqn:E.
  - eexists _, w0, true, []. split; reflexivity.
  - match goal with
    | |- context [probe_fallbacks ?fb ?acc ?s1] =>
        destruct (probe_fallbacks_net fb acc s1) as (hosts & w & evs & Hrun & Hev)
    end.
    rewrite Hrun. exists hosts, w, false, evs.
    split; [|exact Hev].
    f_equal. unfold advance. simpl. now rewrite <- app_assoc.
Qed.

Lemma relay_loop_net mail_from rcpt_to email_data hosts :
  forall s : state World,
  exists delivered w evs,
    relay_loop mail_from rcpt_to email_data hosts s
    = (Ret delivered, advance s w evs)
    /\ forallb network_event evs = true.
Proof.
  induction hosts as [|mx rest IH]; intro s.
  - exists false, (world s), []. simpl. unfold ret.
    now rewrite advance_same.
  - destruct (smtp_deliver mx mail_from rcpt_to
                (full_email mail_from rcpt_to email_data) (world s))
      as [ok w1] eqn:E.
    destruct ok.
    + rewrite (relay_loop_delivered _ _ _ _ rest _ _ E).
      now exists true, w1, [attempt mail_from rcpt_to email_data true mx].
    + rewrite (relay_loop_failed _ _ _ _ rest _ _ E).
      destruct (IH (advance s w1 [attempt mail_from rcpt_to email_data false mx]))
        as (b & w & evs & Hrun & Hb).
      rewrite Hrun, advance_advance.
      now exists b, w, (attempt mail_from rcpt_to email_data false mx :: evs).
Qed.

Lemma relay_email_domain_net mail_from rcpt_to email_data domain (s : state World) :
  nth_error (PyStr.split_on "@" rcpt_to) 1 = Some domain ->
  exists delivered w ok evs,
    _relay_email mail_from rcpt_to email_data s
    = (Ret delivered, advance s w (MxQuery domain ok :: evs))
    /\ forallb network_event evs = true.
Proof.
  intro Hd.
  destruct (get_mx_servers_net domain s) as (hosts & w0 & ok & e0 & Hmx & He0).
  rewrite (relay_email_hosts _ _ _ _ _ _ _ Hd Hmx).
  destruct (relay_loop_net mail_from rcpt_to email_data hosts
              (advance s w0 (MxQuery domain ok :: e0)))
    as (b & w & evs & Hrun & Hev).
  rewrite Hrun, advance_advance.
  exists b, w, ok, (e0 ++ evs). split; [reflexivity|].
  now rewrite forallb_app, He0, Hev.
Qed.

Lemma network_events_quiet (evs : list event) :
  forallb network_event evs = true ->
  replies_of evs = [] /\ records_of evs = [].
Proof.
  induction evs as [|e evs IH]; intro H; [now split|].
  simpl in H. apply andb_prop in H. destruct H as [He Hevs].
  destruct (IH Hevs) as [Hr Hc].
  destruct e; try discriminate; simpl; now rewrite ?Hr, ?Hc.
Qed.

Lemma relay_email_net mail_from rcpt_to email_data (s : state World) :
  exists delivered w evs,
    _relay_email mail_from rcpt_to email_data s
    = (Ret delivered, advance s w evs)
    /\ forallb network_event evs = true.
Proof.
  destruct (nth_error (PyStr.split_on "@" rcpt_to) 1) as [domain|] eqn:Hd.
  - destruct (relay_email_domain_net mail_from rcpt_to email_data domain s Hd)
      as (b & w & ok & evs & Hrun & Hev).
    now exists b, w, (MxQuery domain ok :: evs).
  - exists false, (world s), []. split; [|reflexivity].
    unfold _relay_email, index. rewrite Hd.
    unfold try_except, bind, raise, ret. now rewrite advance_same.
Qed.

(** X3.  [_relay_email] touches the resolver and the outbound SMTP
    client and nothing else, whatever they answer: it returns a
    boolean, it sends nothing to the client, writes no record, closes
    nothing, reads nothing from the connection and leaves the counter
    of processed messages alone. *)
Theorem relay_touches_the_network_only
        mail_from rcpt_to email_data (s : state World) :
  exists delivered w evs,
    _relay_email mail_from rcpt_to email_data s
    = (Ret delivered,
       {| world := w; inbox := inbox s; trace := trace s ++ evs;
          emails_processed := emails_processed s |})
    /\ forallb network_event evs = true
    /\ replies_of evs = []
    /\ records_of evs = [].
Proof.
  destruct (relay_email_net mail_from rcpt_to email_data s)
    as (b & w & evs & Hrun & Hev).
  exists b, w, evs. split; [exact Hrun|]. split; [exact Hev|].
  now apply network_events_quiet.
Qed.

Lemma count_successes_net mail_from email_data rcpt_to :
  forall (n : nat) (s : state World),
  exists k w evs,
    count_successes mail_from rcpt_to email_data n s
    = (Ret (n + k), advance s w evs)
    /\ k <= List.length rcpt_to
    /\ forallb network_event evs = true.
Proof.
  induction rcpt_to as [|rcpt rest IH]; intros n s.
  - exists 0, (world s), []. simpl. unfold ret.
    rewrite advance_same, Nat.add_0_r. auto.
  - destruct (relay_email_net mail_from rcpt email_data s)
      as (b & w1 & e1 & Hrun & He1).
    destruct (IH (if b then S n else n) (advance s w1 e1))
      as (k & w & e2 & Hcount & Hk & He2).
    exists ((if b then 1 else 0) + k), w, (e1 ++ e2).
    cbn [count_successes]. unfold bind at 1. rewrite Hrun, Hcount.
    rewrite advance_advance, forallb_app, He1, He2.
    repeat split; [|destruct b; simpl; lia].
    do 2 f_equal. destruct b; lia.
Qed.

(** X5.  [_process_email] writes one record, after all the network
    activity of the run; the boolean it returns is the [success] field
    of that record, which holds exactly when [successful_deliveries] is
    one or more; and [successful_deliveries] never exceeds
    [total_targets], the number of recipients. *)
Theorem process_email_record_is_consistent
        mail_from rcpt_to email_data cid (s : state World) :
  exists r w evs,
    _process_email mail_from rcpt_to email_data cid s
    = (Ret (success r),
       {| world := w; inbox := inbox s;
          trace := trace s ++ evs ++ [Recorded r];
          emails_processed := emails_processed s |})
    /\ forallb network_event evs = true
    /\ successful_deliveries (details r) <= total_targets (details r)
    /\ total_targets (details r) = List.length rcpt_to
    /\ (success r = true <-> 1 <= successful_deliveries (details r)).
Proof.
  destruct (count_successes_net mail_from email_data rcpt_to 0 s)
    as (k & w1 & evs & Hcount & Hk & Hev).
  destruct (now_isoformat w1) as [now w] eqn:Hnow.
  exists (relay_record now mail_from rcpt_to email_data cid k), w, evs.
  split; [|repeat split; simpl; trivial].
  - unfold _process_email. unfold bind at 1. rewrite Hcount.
    unfold_monad. cbn [Nat.add advance world inbox trace emails_processed].
    rewrite Hnow. cbn [world inbox trace emails_processed].
    now rewrite <- app_assoc.
  - intro H. apply Nat.ltb_lt in H. lia.
  - intro H. apply Nat.ltb_lt. lia.
Qed.

Lemma split_on_from_field (sep : ascii) (a rest cur : str) :
  ~ In sep a ->
  PyStr.split_on_from sep cur (a ++ sep :: rest)
  = (cur ++ a) :: PyStr.split_on_from sep [] rest.
Proof.
  revert cur. induction a as [|c a IH]; intros cur Hn; simpl.
  - now rewrite Ascii.eqb_refl, app_nil_r.
  - destruct (Ascii.eqb c sep) eqn:E.
    + apply Ascii.eqb_eq in E. subst c. exfalso. apply Hn. now left.
    + rewrite IH by (intro Hi; apply Hn; now right).
      now rewrite <- app_assoc.
Qed.

Lemma second_field (loc dom rest : str) :
  ~ In "@"%char loc -> ~ In "@"%char dom ->
  rest = [] \/ (exists r, rest = "@"%char :: r) ->
  nth_error (PyStr.split_on "@" (loc ++ "@"%char :: dom ++ rest)) 1 = Some dom.
Proof.
  intros Hl Hd Hrest. unfold PyStr.split_on.
  rewrite (split_on_from_field "@" loc _ [] Hl). cbn [nth_error].
  destruct Hrest as [->|[r ->]].
  - rewrite app_nil_r, (PyStrFacts.split_on_from_absent "@" dom [] Hd).
    reflexivity.
  - now rewrite (split_on_from_field "@" dom r [] Hd).
Qed.

(** X4.  The domain [_relay_email] looks up is the text between the
    first and the second ['@'] of the recipient: what follows the
    ['@'] when there is one only, the middle part, not the last, when
    there are more.  The mail-exchange query for it is the first thing
    the dispatch does. *)
Theorem relay_looks_up_second_field
        mail_from loc dom rest email_data (s : state World) :
  ~ In "@"%char loc -> ~ In "@"%char dom ->
  rest = [] \/ (exists r, rest = "@"%char :: r) ->
  exists delivered w ok evs,
    _relay_email mail_from (loc ++ "@"%char :: dom ++ rest) email_data s
    = (Ret delivered, advance s w (MxQuery dom ok :: evs))
    /\ forallb network_event evs = true.
Proof.
  intros Hl Hd Hrest. apply relay_email_domain_net.
  now apply second_field.
Qed.

End Network.

Lemma relay_looks_up_second_field_witness :
  exists delivered w ok evs,
    _relay_email "a@x" "bob@example.com@elsewhere.test" "hi" (start [])
    = (Ret delivered, advance (start []) w (MxQuery "example.com" ok :: evs))
    /\ forallb network_event evs = true.
Proof.
  apply (relay_looks_up_second_field
           (pystr "a@x") (pystr "bob") (pystr "example.com")
           (pystr "@elsewhere.test") (pystr "hi") (start [])).
  - absent.
  - absent.
  - right. now exists (pystr "elsewhere.test").
Defined.

(** ** How a session ends *)

Create HintDb tallies.

Section Ending.
Context {World : Type} {P : Platform World}.
Variables peer cid : str.

Lemma strip_whitespace_only (c : str) :
  forallb PyStr.isspace c = true -> PyStr.strip c = [].
Proof.
  intro H. unfold PyStr.strip, PyStr.strip_by.
  assert (E : PyStr.lstrip_by PyStr.isspace c = []).
  { induction c as [|a c IH]; [reflexivity|].
    simpl in H |- *. apply andb_prop in H. destruct H as [Ha Hc].
    rewrite Ha. now apply IH. }
  now rewrite E.
Qed.

(** X6.  A read that raises (time-out, reset), an empty read (the peer
    has closed) and a line of whitespace only (a bare CR LF) all end
    the command loop at once: nothing is sent back, nothing is
    dispatched, and the envelope at hand is dropped. *)
Theorem empty_read_ends_session
        mail_from rcpt_to item rest (s : state World) turns :
  inbox s = item :: rest ->
  item = RecvError
  \/ (exists c, item = Chunk c /\ forallb PyStr.isspace c = true) ->
  session_loop (S turns) peer cid mail_from rcpt_to s
  = (Ret tt, {| world := world s; inbox := rest; trace := trace s;
                emails_processed := emails_processed s |}).
Proof.
  intros Hin Hitem. cbn [session_loop].
  unfold bind, session_step, try_except, bind, recv. rewrite Hin.
  destruct Hitem as [->|(c & -> & Hc)].
  - reflexivity.
  - now rewrite (strip_whitespace_only c Hc).
Qed.

Lemma records_of_app (a b : list event) :
  records_of (a ++ b) = records_of a ++ records_of b.
Proof. unfold records_of. apply flat_map_app. Qed.

Lemma tallies_ret A (a : A) : tallies (World := World) (ret a).
Proof. intro s. exists []. simpl. now rewrite app_nil_r, Nat.add_0_r. Qed.

Lemma tallies_raise A : tallies (World := World) (raise A).
Proof. intro s. exists []. simpl. now rewrite app_nil_r, Nat.add_0_r. Qed.

Lemma tallies_bind A B (m : M World A) (k : A -> M World B) :
  tallies m -> (forall a, tallies (k a)) -> tallies (bind m k).
Proof.
  intros Hm Hk s. unfold bind. destruct (Hm s) as (e1 & Ht1 & Hc1).
  destruct (m s) as [[a| |] s1]; cbn [snd] in *; try (now exists e1).
  destruct (Hk a s1) as (e2 & Ht2 & Hc2).
  exists (e1 ++ e2). rewrite Ht2, Ht1, Hc2, Hc1, records_of_app, length_app.
  split; [now rewrite app_assoc|lia].
Qed.

Lemma tallies_try A (m h : M World A) :
  tallies m -> tallies h -> tallies (try_except m h).
Proof.
  intros Hm Hh s. unfold try_except. destruct (Hm s) as (e1 & Ht1 & Hc1).
  destruct (m s) as [[a| |] s1]; cbn [snd] in *; try (now exists e1).
  destruct (Hh s1) as (e2 & Ht2 & Hc2).
  exists (e1 ++ e2). rewrite Ht2, Ht1, Hc2, Hc1, records_of_app, length_app.
  split; [now rewrite app_assoc|lia].
Qed.

Lemma tallies_if A (b : bool) (m1 m2 : M World A) :
  tallies m1 -> tallies m2 -> tallies (if b then m1 else m2).
Proof. now destruct b. Qed.

Lemma tallies_send data : tallies (send data).
Proof.
  intro s. exists [Sent data]. unfold_monad.
  destruct (sock_send data (world s)) as [[|] w]; simpl;
    now rewrite Nat.add_0_r.
Qed.

Lemma tallies_close : tallies (World := World) close.
Proof.
  intro s. exists [Closed]. destruct (close_run s) as (ok & w & _ & ->).
  simpl. now rewrite Nat.add_0_r.
Qed.

Lemma tallies_recv : tallies (World := World) recv.
Proof.
  intro s. exists []. unfold recv.
  destruct (inbox s) as [|[c|] rest]; simpl;
    now rewrite app_nil_r, Nat.add_0_r.
Qed.

Lemma tallies_read_data : tallies (World := World) read_data.
Proof.
  intro s. exists []. unfold read_data.
  destruct (read_data_from [] (inbox s)). simpl.
  now rewrite app_nil_r, Nat.add_0_r.
Qed.

Lemma process_email_net mail_from rcpt_to email_data (s : state World) :
  exists delivered r w evs,
    _process_email mail_from rcpt_to email_data cid s
    = (Ret delivered,
       {| world := w; inbox := inbox s;
          trace := trace s ++ evs ++ [Recorded r];
          emails_processed := emails_processed s |})
    /\ forallb network_event evs = true.
Proof.
  destruct (count_successes_net mail_from email_data rcpt_to 0 s)
    as (k & w1 & evs & Hcount & _ & Hev).
  destruct (now_isoformat w1) as [now w] eqn:Hnow.
  exists (0 <? k), (relay_record now mail_from rcpt_to email_data cid k), w, evs.
  split; [|exact Hev].
  unfold _process_email. unfold bind at 1. rewrite Hcount.
  unfold_monad. cbn [Nat.add advance world inbox trace emails_processed].
  rewrite Hnow. cbn [world inbox trace emails_processed].
  now rewrite <- app_assoc.
Qed.

(** The record and the count go together: nothing can fail between
    [_process_email] and [self.emails_processed += 1]. *)
Lemma tallies_process_then_count A mail_from rcpt_to email_data
      (k : bool -> M World A) :
  (forall b, tallies (k b)) ->
  tallies (bind (_process_email mail_from rcpt_to email_data cid)
                (fun success => bind count_email (fun _ => k success))).
Proof.
  intros Hk s.
  destruct (process_email_net mail_from rcpt_to email_data s)
    as (b & r & w & evs & Hrun & Hev).
  assert (E :
    bind (_process_email mail_from rcpt_to email_data cid)
         (fun success => bind count_email (fun _ => k success)) s
    = k b {| world := w; inbox := inbox s;
             trace := trace s ++ evs ++ [Recorded r];
             emails_processed := S (emails_processed s) |}).
  { unfold bind at 1. rewrite Hrun. reflexivity. }
  rewrite E.
  match goal with
  | |- context [k b ?s1] => destruct (Hk b s1) as (e2 & Ht2 & Hc2)
  end.
  cbn [world inbox trace emails_processed] in Ht2, Hc2.
  exists ((evs ++ [Recorded r]) ++ e2). rewrite Ht2, Hc2. split.
  - now rewrite <- !app_assoc.
  - rewrite !records_of_app, !length_app.
    destruct (network_events_quiet evs Hev) as [_ ->]. simpl. lia.
Qed.

#[local] Hint Resolve tallies_ret tallies_raise tallies_send tallies_recv
  tallies_read_data : tallies.

Lemma tallies_session_step mail_from rcpt_to :
  tallies (session_step peer cid mail_from rcpt_to).
Proof.
  unfold session_step. apply tallies_try; [|auto with tallies].
  apply tallies_bind; [auto with tallies|]. intro chunk. cbv zeta.
  destruct (PyStr.strip chunk); [auto with tallies|].
  repeat first
    [ solve [auto with tallies]
    | apply tallies_process_then_count; intro
    | apply tallies_if
    | apply tallies_bind; [|intro] ].
Qed.

Lemma tallies_session_loop turns :
  forall mail_from rcpt_to,
    tallies (session_loop turns peer cid mail_from rcpt_to).
Proof.
  induction turns as [|turns IH]; intros mail_from rcpt_to.
  - intro s. exists []. simpl. now rewrite app_nil_r, Nat.add_0_r.
  - cbn [session_loop]. apply tallies_bind; [apply tallies_session_step|].
    intros [|mf rt]; [apply tallies_ret|apply IH].
Qed.

Lemma tallies_greeting_and_loop :
  tallies (bind (send GREETING)
                (fun _ s => session_loop (S (List.length (inbox s)))
                                         peer cid [] [] s)).
Proof.
  apply tallies_bind; [apply tallies_send|]. intros _ s.
  apply (tallies_session_loop (S (List.length (inbox s))) [] [] s).
Qed.

(** X7.  The only exception that leaves [_handle_client] is one raised
    by [client_sock.close()] in the [finally] clause: whatever the
    peer, the sends, the resolver and the outbound sessions raise stays
    inside.  Unless the call waits for the peer, the session ends in a
    state [s1] that has only added to the trace, [close()] is attempted
    there, as the last thing, and the call returns when [close()]
    returns and raises when [close()] raises. *)
Theorem handle_client_contains_failures (s : state World) :
  fst (_handle_client peer cid s) = Blocked
  \/ exists s1 evs closed w,
       trace s1 = trace s ++ evs
       /\ sock_close (world s1) = (closed, w)
       /\ _handle_client peer cid s
          = ((if closed then Ret tt else Raise), advance s1 w [Closed]).
Proof.
  unfold _handle_client, bind at 1, bind at 2, try_except.
  destruct (tallies_greeting_and_loop s) as (evs & Ht & _).
  destruct (bind (send GREETING) _ s) as [[[]| |] s1]; cbn [snd] in Ht;
    unfold ret; cbn [fst]; try (now left); right;
    destruct (close_run s1) as (closed & w & Hc & Hrun);
    exists s1, evs, closed, w; auto.
Qed.

(** X8.  Over a whole session the counter of processed messages goes
    up by exactly the number of records the session has written: each
    completed DATA turn writes one record and counts one message, and
    nothing else does either. *)
Theorem handle_client_counts_its_records (s : state World) :
  exists evs,
    trace (snd (_handle_client peer cid s)) = trace s ++ evs
    /\ emails_processed (snd (_handle_client peer cid s))
       = emails_processed s + List.length (records_of evs).
Proof.
  assert (H : tallies (_handle_client peer cid)).
  { unfold _handle_client. apply tallies_bind.
    - apply tallies_try; [apply tallies_greeting_and_loop|apply tallies_ret].
    - intros _. apply tallies_close. }
  exact (H s).
Qed.

End Ending.

Lemma handle_client_contains_failures_witness :
  exists s1,
    _handle_client (P := Stale.platform) "198.51.100.7" "198.51.100.7:4242"
                   (start [Chunk (("QUIT" : str) ++ CRLF)])
    = (Raise, advance s1 (world s1) [Closed]).
Proof.
  destruct (handle_client_contains_failures (P := Stale.platform)
              "198.51.100.7" "198.51.100.7:4242"
              (start [Chunk (("QUIT" : str) ++ CRLF)]))
    as [Hb|(s1 & evs & closed & w & _ & Hc & Hrun)].
  - vm_compute in Hb. discriminate.
  - exists s1. cbn in Hc. injection Hc as <- <-. exact Hrun.
Defined.

Lemma empty_read_ends_session_witness :
  session_loop 3 "198.51.100.7" "198.51.100.7:4242" "a@x" [pystr "b@y"]
               (start [Chunk CRLF; Chunk (("QUIT" : str) ++ CRLF)])
  = (Ret tt, {| world := 0; inbox := [Chunk (("QUIT" : str) ++ CRLF)];
                trace := []; emails_processed := 0 |}).
Proof.
  apply (empty_read_ends_session
           "198.51.100.7" "198.51.100.7:4242" "a@x" [pystr "b@y"]
           (Chunk CRLF) [Chunk (("QUIT" : str) ++ CRLF)]
           (start [Chunk CRLF; Chunk (("QUIT" : str) ++ CRLF)]) 2).
  - reflexivity.
  - right. exists CRLF. split; reflexivity.
Defined.

(** ** Replies that do not go out *)

Section BrokenPipe.
Context {World : Type} {P : Platform World}.
Variables peer cid : str.

(** X9.  When a send to the client raises, the session ends there.  On
    the greeting: the socket is closed before anything is read, and the
    call returns, or raises what [close()] raises.  On the 354 reply:
    the body is not read and nothing is dispatched.  On the reply after
    the body: the message has been dispatched, recorded and counted all
    the same, though the client gets no answer. *)
Theorem send_failure_ends_session
        mail_from rcpt_to c items email_data rest (s : state World)
        w1 delivered s2 w3 closed w4 :
  (sock_send GREETING (world s) = (false, w1) ->
   sock_close w1 = (closed, w4) ->
   _handle_client peer cid s
   = ((if closed then Ret tt else Raise),
      {| world := w4; inbox := inbox s;
         trace := trace s ++ [Sent GREETING; Closed];
         emails_processed := emails_processed s |}))
  /\ (is_exactly "DATA" c -> inbox s = Chunk c :: items ->
      sock_send START_354 (world s) = (false, w1) ->
      session_step peer cid mail_from rcpt_to s
      = (Ret Break, {| world := w1; inbox := items;
                       trace := trace s ++ [Sent START_354];
                       emails_processed := emails_processed s |}))
  /\ (is_exactly "DATA" c -> inbox s = Chunk c :: items ->
      sock_send START_354 (world s) = (true, w1) ->
      read_data_from [] items = (Ret email_data, rest) ->
      _process_email mail_from rcpt_to (PyStr.drop_last 5 email_data) cid
        {| world := w1; inbox := rest; trace := trace s ++ [Sent START_354];
           emails_processed := emails_processed s |}
      = (Ret delivered, s2) ->
      sock_send (if delivered then QUEUED_250 else FAILED_550) (world s2)
      = (false, w3) ->
      session_step peer cid mail_from rcpt_to s
      = (Ret Break,
         {| world := w3; inbox := inbox s2;
            trace := trace s2
                     ++ [Sent (if delivered then QUEUED_250 else FAILED_550)];
            emails_processed := S (emails_processed s2) |})).
Proof.
  repeat match goal with |- _ /\ _ => split end.
  - intros Hg Hc. unfold _handle_client, close. unfold_monad. rewrite Hg.
    cbn [world inbox trace emails_processed]. rewrite Hc.
    cbn [world inbox trace emails_processed]. rewrite <- app_assoc.
    now destruct closed.
  - intros [Hne Hkw] Hin H354. enter_step s Hin. rewrite Hkw.
    decide_tests. unfold_monad. cbn [world inbox trace emails_processed].
    now rewrite H354.
  - intros Hd Hin H354 Hbody Hproc Hreply.
    rewrite (step_data peer cid mail_from rcpt_to c items email_data rest s
                       w1 delivered s2 Hd Hin H354 Hbody Hproc).
    unfold replies. cbn [world inbox trace emails_processed].
    now rewrite Hreply.
Qed.

End BrokenPipe.

Lemma send_failure_ends_session_witness :
  _handle_client (P := Flaky.platform) "198.51.100.7" "198.51.100.7:4242"
    (Flaky.start 0 [Chunk (("QUIT" : str) ++ CRLF)])
  = (Ret tt, {| world := 0; inbox := [Chunk (("QUIT" : str) ++ CRLF)];
                trace := [Sent GREETING; Closed]; emails_processed := 0 |})
  /\ session_step (P := Flaky.platform) "198.51.100.7" "198.51.100.7:4242"
       "a@x" [pystr "b@example.com"]
       (Flaky.start 0 [Chunk (("DATA" : str) ++ CRLF);
                       Chunk (("hello" : str) ++ TERMINATOR)])
     = (Ret Break,
        {| world := 0; inbox := [Chunk (("hello" : str) ++ TERMINATOR)];
           trace := [Sent START_354]; emails_processed := 0 |})
  /\ (exists s2,
        _process_email (P := Flaky.platform) "a@x" [pystr "b@example.com"]
          (PyStr.drop_last 5 (("hello" : str) ++ TERMINATOR))
          "198.51.100.7:4242"
          {| world := 0; inbox := []; trace := [] ++ [Sent START_354];
             emails_processed := 0 |}
        = (Ret true, s2)
        /\ session_step (P := Flaky.platform)
             "198.51.100.7" "198.51.100.7:4242" "a@x" [pystr "b@example.com"]
             (Flaky.start 1 [Chunk (("DATA" : str) ++ CRLF);
                             Chunk (("hello" : str) ++ TERMINATOR)])
           = (Ret Break,
              {| world := 0; inbox := inbox s2;
                 trace := trace s2 ++ [Sent QUEUED_250];
                 emails_processed := S (emails_processed s2) |})).
Proof.
  split; [|split].
  - apply (send_failure_ends_session (P := Flaky.platform)
             "198.51.100.7" "198.51.100.7:4242" [] [] [] [] [] []
             (Flaky.start 0 [Chunk (("QUIT" : str) ++ CRLF)])
             0 false (Flaky.start 0 []) 0 true 0).
    + reflexivity.
    + reflexivity.
  - apply (send_failure_ends_session (P := Flaky.platform)
             "198.51.100.7" "198.51.100.7:4242" "a@x" [pystr "b@example.com"]
             (("DATA" : str) ++ CRLF) [Chunk (("hello" : str) ++ TERMINATOR)]
             [] []
             (Flaky.start 0 [Chunk (("DATA" : str) ++ CRLF);
                             Chunk (("hello" : str) ++ TERMINATOR)])
             0 false (Flaky.start 0 []) 0 true 0).
    + split; [vm_compute; discriminate|reflexivity].
    + reflexivity.
    + reflexivity.
  - eexists. split.
    + vm_compute. reflexivity.
    + apply (proj2 (proj2
        (send_failure_ends_session (P := Flaky.platform)
           "198.51.100.7" "198.51.100.7:4242" "a@x" [pystr "b@example.com"]
           (("DATA" : str) ++ CRLF) [Chunk (("hello" : str) ++ TERMINATOR)]
           (("hello" : str) ++ TERMINATOR) []
           (Flaky.start 1 [Chunk (("DATA" : str) ++ CRLF);
                           Chunk (("hello" : str) ++ TERMINATOR)])
           0 true _ 0 true 0))).
      * split; [vm_compute; discriminate|reflexivity].
      * reflexivity.
      * reflexivity.
      * vm_compute. reflexivity.
      * vm_compute. reflexivity.
      * reflexivity.
Defined.

(** ** Envelopes and deliveries *)

Section Deliveries.
Context {World : Type} {P : Platform World}.
Variables peer cid : str.


(** X11.  One recipient, and a candidate host that takes the message
    after the hosts before it have refused: the message handed to each
    outbound session is the two header lines made of the sender and
    the recipient followed by the body as the client sent it, the
    marker taken off; the record says success with one delivery out of
    one; the reply is 250; the envelope is empty afterwards and what
    came after the marker is left for the next turn. *)
Theorem data_turn_relays_the_body
        mail_from rcpt c body rest (s : state World)
        w1 domain pre mx others s2 w2 w3 now w4 w5 :
  is_exactly "DATA" c ->
  inbox s = Chunk c :: Chunk (body ++ TERMINATOR) :: rest ->
  sock_send START_354 (world s) = (true, w1) ->
  nth_error (PyStr.split_on "@" rcpt) 1 = Some domain ->
  _get_mx_servers domain
    {| world := w1; inbox := rest; trace := trace s ++ [Sent START_354];
       emails_processed := emails_processed s |}
  = (Ret (pre ++ mx :: others), s2) ->
  all_fail mail_from rcpt body pre (world s2) w2 ->
  smtp_deliver mx mail_from rcpt (full_email mail_from rcpt body) w2
  = (true, w3) ->
  now_isoformat w3 = (now, w4) ->
  sock_send QUEUED_250 w4 = (true, w5) ->
  session_step peer cid mail_from [rcpt] s
  = (Ret (Continue [] []),
     {| world := w5; inbox := rest;
        trace := trace s2
                 ++ map (attempt mail_from rcpt body false) pre
                 ++ [ attempt mail_from rcpt body true mx;
                      Recorded (relay_record now mail_from [rcpt] body cid 1);
                      Sent QUEUED_250 ];
        emails_processed := S (emails_processed s) |}).
Proof.
  intros Hd Hin H354 Hdom Hmx Hpre Hok Hnow H250.
  assert (Hbody : read_data_from [] (Chunk (body ++ TERMINATOR) :: rest)
                  = (Ret (body ++ TERMINATOR), rest)).
  { simpl.
    rewrite (proj2 (PyStrFacts.endswith_iff TERMINATOR (body ++ TERMINATOR)))
      by now exists body.
    reflexivity. }
  assert (Hdrop : PyStr.drop_last 5 (body ++ TERMINATOR) = body)
    by apply (PyStrFacts.drop_last_app body TERMINATOR).
  destruct (get_mx_servers_run domain
              {| world := w1; inbox := rest;
                 trace := trace s ++ [Sent START_354];
                 emails_processed := emails_processed s |})
    as (hosts & w0 & e0 & Hrun & _).
  rewrite Hrun in Hmx. injection Hmx as -> <-.
  assert (Hproc :
    _process_email mail_from [rcpt] body cid
      {| world := w1; inbox := rest; trace := trace s ++ [Sent START_354];
         emails_processed := emails_processed s |}
    = (Ret true,
       {| world := w4; inbox := rest;
          trace := ((trace s ++ [Sent START_354]) ++ e0)
                   ++ map (attempt mail_from rcpt body false) pre
                   ++ [ attempt mail_from rcpt body true mx;
                        Recorded (relay_record now mail_from [rcpt] body cid 1) ];
          emails_processed := emails_processed s |})).
  { unfold _process_email. cbn [count_successes]. unfold bind at 1, bind at 1.
    rewrite (relay_email_hosts mail_from rcpt body domain (pre ++ mx :: others)
                               _ _ Hdom Hrun).
    rewrite (relay_loop_first_success mail_from rcpt body pre mx others
               _ w2 w3 Hpre Hok _ eq_refl).
    unfold_monad. cbn [advance world inbox trace emails_processed].
    rewrite Hnow. cbn [world inbox trace emails_processed].
    now rewrite <- !app_assoc. }
  rewrite <- Hdrop in Hproc at 1.
  rewrite (step_data peer cid mail_from [rcpt] c _ _ rest s w1 true _
                     Hd Hin H354 Hbody Hproc).
  unfold replies. cbn [advance world inbox trace emails_processed].
  rewrite H250. now rewrite <- !app_assoc.
Qed.

End Deliveries.


Lemma data_turn_relays_the_body_witness :
  session_step "198.51.100.7" "198.51.100.7:4242" "a@x" [pystr "b@corp.test"]
    (start [ Chunk (("DATA" : str) ++ CRLF);
             Chunk ((("Subject: hi" : str) ++ CRLF ++ ("hello" : str))
                    ++ TERMINATOR);
             Chunk (("QUIT" : str) ++ CRLF) ])
  = (Ret (Continue [] []),
     {| world := 2; inbox := [Chunk (("QUIT" : str) ++ CRLF)];
        trace := [ Sent START_354;
                   MxQuery "corp.test" false;
                   Probe "mail.corp.test" true;
                   Probe "mx.corp.test" false;
                   Probe "mx1.corp.test" true ]
                 ++ map (attempt "a@x" "b@corp.test"
                           (("Subject: hi" : str) ++ CRLF ++ ("hello" : str))
                           false)
                        [pystr "mail.corp.test"]
                 ++ [ attempt "a@x" "b@corp.test"
                        (("Subject: hi" : str) ++ CRLF ++ ("hello" : str)) true
                        "mx1.corp.test";
                      Recorded (relay_record "2024-01-01T00:00:00" "a@x"
                                  [pystr "b@corp.test"]
                                  (("Subject: hi" : str) ++ CRLF
                                   ++ ("hello" : str))
                                  "198.51.100.7:4242" 1);
                      Sent QUEUED_250 ];
        emails_processed := 1 |}).
Proof.
  apply (data_turn_relays_the_body
           "198.51.100.7" "198.51.100.7:4242" (pystr "a@x") (pystr "b@corp.test")
           (("DATA" : str) ++ CRLF)
           (("Subject: hi" : str) ++ CRLF ++ ("hello" : str))
           [Chunk (("QUIT" : str) ++ CRLF)]
           (start [ Chunk (("DATA" : str) ++ CRLF);
                    Chunk ((("Subject: hi" : str) ++ CRLF ++ ("hello" : str))
                           ++ TERMINATOR);
                    Chunk (("QUIT" : str) ++ CRLF) ])
           0 "corp.test" [pystr "mail.corp.test"] "mx1.corp.test" []
           {| world := 0; inbox := [Chunk (("QUIT" : str) ++ CRLF)];
              trace := [ Sent START_354;
                         MxQuery "corp.test" false;
                         Probe "mail.corp.test" true;
                         Probe "mx.corp.test" false;
                         Probe "mx1.corp.test" true ];
              emails_processed := 0 |}
           1 2 "2024-01-01T00:00:00" 2 2).
  - split; [vm_compute; discriminate|reflexivity].
  - reflexivity.
  - reflexivity.
  - reflexivity.
  - vm_compute. reflexivity.
  - eapply all_fail_cons; [reflexivity|apply all_fail_nil].
  - reflexivity.
  - reflexivity.
  - reflexivity.
Defined.

(** * The configuration file *)

Module JsonFacts.
Import Json.

Lemma set_new (d : list (str * json)) (key : str) (value : json) :
  has_key d key = false -> set d key value = d ++ [(key, value)].
Proof.
  induction d as [|[k v] d IH]; simpl; [reflexivity|].
  intro H. apply orb_false_elim in H. destruct H as [Hk Hd].
  rewrite Hk. now rewrite IH.
Qed.

Lemma has_key_app (d e : list (str * json)) (key : str) :
  has_key (d ++ e) key = has_key d key || has_key e key.
Proof. unfold has_key. apply existsb_app. Qed.

Lemma get_app (d e : list (str * json)) (key : str) (value : json) :
  get d key = Some value -> get (d ++ e) key = Some value.
Proof.
  induction d as [|[k v] d IH]; simpl; [discriminate|].
  destruct (PyStr.eqb k key); [trivial|exact IH].
Qed.

Lemma get_app_new (d e : list (str * json)) (key : str) :
  has_key d key = false -> get (d ++ e) key = get e key.
Proof.
  induction d as [|[k v] d IH]; simpl; [reflexivity|].
  intro H. apply orb_false_elim in H. destruct H as [Hk Hd].
  rewrite Hk. now apply IH.
Qed.

Lemma has_key_in (d : list (str * json)) (key : str) :
  has_key d key = true <-> In key (map fst d).
Proof.
  unfold has_key. rewrite existsb_exists, in_map_iff. split.
  - intros ([k v] & Hin & Hk). apply PyStrFacts.eqb_eq in Hk. simpl in Hk.
    subst k. now exists (key, v).
  - intros ([k v] & Hk & Hin). simpl in Hk. subst k.
    exists (key, v). split; [exact Hin|apply PyStrFacts.eqb_refl].
Qed.

Lemma get_first (d : list (str * json)) (key : str) (value : json) :
  NoDup (map fst d) -> In (key, value) d -> get d key = Some value.
Proof.
  induction d as [|[k v] d IH]; simpl; [tauto|].
  intros Hnd [E|Hin].
  - injection E as -> ->. now rewrite PyStrFacts.eqb_refl.
  - apply NoDup_cons_iff in Hnd. destruct Hnd as [Hk Hnd].
    destruct (PyStr.eqb k key) eqn:E; [|now apply IH].
    apply PyStrFacts.eqb_eq in E. subst k. exfalso. apply Hk.
    apply in_map_iff. now exists (key, value).
Qed.

Lemma nodup_keys_filter (p : str * json -> bool) (d : list (str * json)) :
  NoDup (map fst d) -> NoDup (map fst (filter p d)).
Proof.
  induction d as [|kv d IH]; simpl; [trivial|].
  intro H. apply NoDup_cons_iff in H. destruct H as [Hk Hd].
  destruct (p kv); simpl; [|now apply IH].
  constructor; [|now apply IH].
  intro Hin. apply Hk. apply in_map_iff in Hin.
  destruct Hin as (x & Hx & Hf). apply filter_In in Hf.
  apply in_map_iff. exists x. tauto.
Qed.

(** The loop on a dict: the entries of the file stay, the default
    entries whose keys the file lacks come after them. *)
Lemma merge_into_dict (default_config : list (str * json)) :
  forall ds d,
    (forall k v, In (k, v) ds -> get default_config k = Some v) ->
    NoDup (map fst ds) ->
    merge_defaults default_config (map fst ds) (JDict d)
    = Some (JDict (d ++ filter (fun kv => negb (has_key d (fst kv))) ds)).
Proof.
  induction ds as [|[k v] ds IH]; intros d Hget Hnd.
  - simpl. now rewrite app_nil_r.
  - apply NoDup_cons_iff in Hnd. destruct Hnd as [Hk Hnd].
    cbn [map fst merge_defaults mentions filter].
    destruct (has_key d k) eqn:E; cbn [negb].
    + apply IH; [|exact Hnd]. intros k' v' Hin. apply Hget. now right.
    + rewrite (Hget k v) by now left.
      cbn [setitem]. rewrite (set_new d k v E).
      rewrite IH; [|intros k' v' Hin; apply Hget; now right|exact Hnd].
      rewrite <- app_assoc. do 3 f_equal. cbn [app]. f_equal.
      apply filter_ext_in. intros [k' v'] Hin. cbn [fst].
      rewrite has_key_app. cbn [has_key existsb fst].
      destruct (PyStr.eqb k k') eqn:Ek; [|now rewrite !orb_false_r].
      apply PyStrFacts.eqb_eq in Ek. subst k'. exfalso. apply Hk.
      apply in_map_iff. now exists (k, v').
Qed.

(** The loop on anything else: the first key that is not mentioned
    makes it raise. *)
Lemma merge_into_other (default_config : list (str * json)) (loaded : json) :
  (forall d, loaded <> JDict d) ->
  forall keys,
    merge_defaults default_config keys loaded
    = if forallb (fun key => match mentions loaded key with
                             | Some true => true
                             | _ => false
                             end) keys
      then Some loaded else None.
Proof.
  intros Hnot keys. induction keys as [|key keys IH]; [reflexivity|].
  cbn [merge_defaults forallb].
  destruct (mentions loaded key) as [[|]|]; cbn [andb]; trivial.
  destruct (get default_config key); [|reflexivity].
  destruct loaded; try reflexivity. now destruct (Hnot entries).
Qed.

End JsonFacts.

Section Config.
Context {World : Type} {F : ConfigFile World}.

(** X12.  When the configuration file holds a JSON object, the
    configuration is that object with its entries as they are and in
    their order, followed by the default entries whose keys it lacks,
    in the order of the defaults.  So every default key is there, a
    value of the file is never replaced by a default, not even a value
    of the wrong shape, and nothing is written back. *)
Theorem load_config_merges_defaults default_config d (w w1 w2 : World) :
  NoDup (map fst default_config) ->
  config_file_exists w = (true, w1) ->
  json_load w1 = (Some (JDict d), w2) ->
  let merged :=
    d ++ filter (fun kv => negb (Json.has_key d (fst kv))) default_config in
  _load_config default_config w = (JDict merged, None, w2)
  /\ (forall key, In key (map fst default_config) ->
                  Json.has_key merged key = true)
  /\ (forall key value, Json.get d key = Some value ->
                        Json.get merged key = Some value)
  /\ (forall key value, Json.has_key d key = false ->
                        In (key, value) default_config ->
                        Json.get merged key = Some value).
Proof.
  intros Hnd Hex Hload merged. repeat split.
  - unfold _load_config. rewrite Hex, Hload.
    rewrite (JsonFacts.merge_into_dict default_config default_config d);
      [reflexivity| |exact Hnd].
    intros k v Hin. now apply JsonFacts.get_first.
  - intros key Hin. unfold merged. rewrite JsonFacts.has_key_app.
    destruct (Json.has_key d key) eqn:E; [reflexivity|]. cbn [orb].
    apply in_map_iff in Hin. destruct Hin as ([k v] & Hk & Hin).
    simpl in Hk. subst k. apply JsonFacts.has_key_in, in_map_iff.
    exists (key, v). split; [reflexivity|].
    apply filter_In. split; [exact Hin|]. simpl. now rewrite E.
  - intros key value Hget. now apply JsonFacts.get_app.
  - intros key value Hno Hin. unfold merged.
    rewrite (JsonFacts.get_app_new d _ key Hno).
    apply JsonFacts.get_first.
    + now apply JsonFacts.nodup_keys_filter.
    + apply filter_In. split; [exact Hin|]. simpl. now rewrite Hno.
Qed.

(** X13.  Without a configuration file the defaults are taken and
    written out.  With a file that cannot be read or parsed, the
    defaults are taken and nothing is written.  With a file that holds
    JSON other than an object, the loop over the default keys raises at
    the first key the value does not mention, and the defaults are
    taken: always for null, a boolean or a number; for an array or a
    text unless it mentions every default key, in which case the array
    or the text itself is returned as the configuration. *)
Theorem load_config_falls_back default_config (w w1 w2 : World) :
  (config_file_exists w = (false, w1) ->
   _load_config default_config w
   = (JDict default_config, Some (JDict default_config), w1))
  /\ (config_file_exists w = (true, w1) -> json_load w1 = (None, w2) ->
      _load_config default_config w = (JDict default_config, None, w2))
  /\ (forall loaded,
        config_file_exists w = (true, w1) ->
        json_load w1 = (Some loaded, w2) ->
        (forall d, loaded <> JDict d) ->
        _load_config default_config w
        = ((if forallb (fun key => match Json.mentions loaded key with
                                   | Some true => true
                                   | _ => false
                                   end) (map fst default_config)
            then loaded else JDict default_config),
           None, w2))
  /\ (forall loaded,
        config_file_exists w = (true, w1) ->
        json_load w1 = (Some loaded, w2) ->
        default_config <> [] ->
        loaded = JNull \/ (exists b, loaded = JBool b)
        \/ (exists n, loaded = JNum n) ->
        _load_config default_config w = (JDict default_config, None, w2)).
Proof.
  assert (Hother : forall loaded,
    config_file_exists w = (true, w1) ->
    json_load w1 = (Some loaded, w2) ->
    (forall d, loaded <> JDict d) ->
    _load_config default_config w
    = ((if forallb (fun key => match Json.mentions loaded key with
                               | Some true => true
                               | _ => false
                               end) (map fst default_config)
        then loaded else JDict default_config),
       None, w2)).
  { intros loaded Hex Hload Hnot. unfold _load_config. rewrite Hex, Hload.
    rewrite (JsonFacts.merge_into_other default_config loaded Hnot).
    now destruct (forallb _ _). }
  repeat match goal with |- _ /\ _ => split end.
  - intro Hex. unfold _load_config. now rewrite Hex.
  - intros Hex Hload. unfold _load_config. now rewrite Hex, Hload.
  - exact Hother.
  - intros loaded Hex Hload Hne Hscalar.
    rewrite (Hother loaded Hex Hload).
    + destruct default_config as [|[k v] ds]; [congruence|].
      cbn [map fst forallb].
      now destruct Hscalar as [->|[[b ->]|[n ->]]].
    + intros d ->. now destruct Hscalar as [H|[[b H]|[n H]]].
Qed.

End Config.

Lemma load_config_merges_defaults_witness :
  _load_config
    (F := LabConfig.file
            (Some (Some (JDict [ (pystr "smtp_server", JStr "mail.corp.test");
                                 (pystr "theme", JStr "dark") ]))))
    LabConfig.defaults tt
  = (JDict ([ (pystr "smtp_server", JStr "mail.corp.test");
              (pystr "theme", JStr "dark") ]
            ++ filter (fun kv =>
                         negb (Json.has_key
                                 [ (pystr "smtp_server", JStr "mail.corp.test");
                                   (pystr "theme", JStr "dark") ] (fst kv)))
                      LabConfig.defaults),
     None, tt).
Proof.
  apply (load_config_merges_defaults
           (F := LabConfig.file
                   (Some (Some (JDict [ (pystr "smtp_server",
                                         JStr "mail.corp.test");
                                        (pystr "theme", JStr "dark") ]))))
           LabConfig.defaults
           [ (pystr "smtp_server", JStr "mail.corp.test");
             (pystr "theme", JStr "dark") ]
           tt tt tt).
  - repeat constructor; absent.
  - reflexivity.
  - reflexivity.
Defined.

Lemma load_config_falls_back_witness :
  _load_config (F := LabConfig.file None) LabConfig.defaults tt
  = (JDict LabConfig.defaults, Some (JDict LabConfig.defaults), tt)
  /\ _load_config (F := LabConfig.file (Some None)) LabConfig.defaults tt
     = (JDict LabConfig.defaults, None, tt)
  /\ _load_config (F := LabConfig.file (Some (Some (JNum "42"))))
                  LabConfig.defaults tt
     = (JDict LabConfig.defaults, None, tt)
  /\ _load_config (F := LabConfig.file (Some (Some (JList (map JStr DEFAULT_KEYS)))))
                  LabConfig.defaults tt
     = (JList (map JStr DEFAULT_KEYS), None, tt).
Proof.
  split; [|split; [|split]].
  - apply (load_config_falls_back (F := LabConfig.file None)
             LabConfig.defaults tt tt tt).
    reflexivity.
  - apply (load_config_falls_back (F := LabConfig.file (Some None))
             LabConfig.defaults tt tt tt); reflexivity.
  - apply (proj2 (proj2 (proj2
             (load_config_falls_back
                (F := LabConfig.file (Some (Some (JNum "42"))))
                LabConfig.defaults tt tt tt))) (JNum "42"));
      [reflexivity|reflexivity|discriminate|].
    right. right. now exists (pystr "42").
  - apply (proj1 (proj2 (proj2
             (load_config_falls_back
                (F := LabConfig.file (Some (Some (JList (map JStr DEFAULT_KEYS)))))
                LabConfig.defaults tt tt tt))) (JList (map JStr DEFAULT_KEYS)));
      [reflexivity|reflexivity|discriminate].
Defined.

(** * The body in several chunks *)

(** X14.  A body that comes in several chunks is put together in the
    order of arrival, empty chunks included, up to the first chunk that
    itself ends with the marker; what the dispatcher gets is all of it
    without the marker, and the chunks after that one are left unread
    for the command loop. *)
Theorem body_over_several_chunks
        (acc : str) (earlier : list str) (last_part : str)
        (rest : list recv_item) :
  Forall (fun line => PyStr.endswith line TERMINATOR = false) earlier ->
  read_data_from acc (map Chunk earlier
                      ++ Chunk (last_part ++ TERMINATOR) :: rest)
  = (Ret (acc ++ List.concat earlier ++ last_part ++ TERMINATOR), rest)
  /\ PyStr.drop_last 5 (acc ++ List.concat earlier ++ last_part ++ TERMINATOR)
     = acc ++ List.concat earlier ++ last_part.
Proof.
  intro Hall. split.
  - revert acc. induction Hall as [|line earlier Hline _ IH]; intro acc.
    + simpl.
      rewrite (proj2 (PyStrFacts.endswith_iff TERMINATOR
                        (last_part ++ TERMINATOR)))
        by now exists last_part.
      reflexivity.
    + cbn [map app List.concat]. rewrite (read_data_from_goes_on _ _ _ Hline).
      rewrite IH. now rewrite <- !app_assoc.
  - rewrite !app_assoc. apply (PyStrFacts.drop_last_app _ TERMINATOR).
Qed.

Lemma body_over_several_chunks_witness :
  read_data_from []
    (map Chunk [("Subject: hi" : str) ++ CRLF; []; ("." : str)]
     ++ Chunk (("hello" : str) ++ TERMINATOR)
     :: [Chunk (("QUIT" : str) ++ CRLF)])
  = (Ret ([] ++ List.concat [("Subject: hi" : str) ++ CRLF; []; ("." : str)]
          ++ ("hello" : str) ++ TERMINATOR),
     [Chunk (("QUIT" : str) ++ CRLF)])
  /\ PyStr.drop_last 5
       ([] ++ List.concat [("Subject: hi" : str) ++ CRLF; []; ("." : str)]
        ++ ("hello" : str) ++ TERMINATOR)
     = [] ++ List.concat [("Subject: hi" : str) ++ CRLF; []; ("." : str)]
       ++ ("hello" : str).
Proof.
  apply (body_over_several_chunks
           [] [("Subject: hi" : str) ++ CRLF; []; ("." : str)] (pystr "hello")
           [Chunk (("QUIT" : str) ++ CRLF)]).
  repeat constructor.
Defined.
